(** * ha-linky: gap detection and backfill of Home Assistant statistics

    A shallow embedding of the client that [index.ts] imports as [./ha.js]
    (class [HomeAssistantClient]: the oldest-point locator
    [findOldestStatistic], the baseline lookup [fetchLastSum] and the async
    generator [missingDayRanges]) and of [index.ts] (the backfill driver
    [runFill]).

    Conventions of the embedding.
    - A dayjs instant is its epoch value in milliseconds, a [Z]; the ISO
      strings put on the wire are renderings of that instant, and days are
      UTC days of [day] milliseconds.
    - A JavaScript [number] is an IEEE 754 binary64 value, Rocq's primitive
      [float]; [number | null] is [option number].
    - A promise is a computation over the world (the remote store and the
      log of the messages sent to it) that resolves or is rejected.
    - The remote store is arbitrary: a state type [St] and a function
      [respond] giving, for a message and a store state, the reply and the
      next store state.
    - Left out: the request id that [sendMessage] stamps on a message, the
      log lines, and dates that do not parse. Statistics start on the hour,
      so the rendering of [hole.next] to the second loses nothing. *)

From Stdlib Require Import ZArith List Ascii String Bool Sorted Lia.
From Stdlib Require Import Floats.PrimFloat.
Import ListNotations.
Local Open Scope Z_scope.
Local Open Scope list_scope.

(** ** Time *)

Definition Timestamp := Z.

(** One day, in milliseconds. *)
Definition day : Z := 86400000.

(** [t.startOf('day')] *)
Definition startOfDay (t : Timestamp) : Timestamp := t - t mod day.

(** [t.add(n, 'day')], and [t.subtract(n, 'day')] for a negative [n] *)
Definition addDays (n : Z) (t : Timestamp) : Timestamp := t + n * day.

(** [a.isBefore(b)] and [a.isAfter(b)] *)
Definition isBefore (a b : Timestamp) : bool := a <? b.
Definition isAfter (a b : Timestamp) : bool := b <? a.

(** ** Numbers *)

Definition number := float.

(** Truthiness of a JavaScript number: every number but [0], [-0] and [NaN]. *)
Definition truthy (x : number) : bool := negb (is_zero x || is_nan x).

(** ** Data *)

Record StatisticDataPoint := {
  start : Timestamp;
  state : number;
  sum : number
}.

Record LinkyDataPoint := {
  date : Timestamp;
  value : number
}.

Record Hole := {
  from : Timestamp;
  to : Timestamp;
  lastSum : number;
  lastCost : option number;
  next : Timestamp
}.

(** ** Messages of the websocket API *)

Record Metadata := {
  has_mean : bool;
  has_sum : bool;
  name : string;
  source : string;
  statistic_id : string;
  unit_of_measurement : string
}.

Inductive Message :=
| statistics_during_period (start_time end_time : Timestamp) (statistic_ids : list string)
| import_statistics (metadata : Metadata) (stats : list StatisticDataPoint)
| adjust_sum_statistics (statistic_id : string) (start_time : Timestamp)
    (adjustment : number) (adjustment_unit_of_measurement : string).

(** The [result] of a successful reply, read at a statistic id:
    [result[statisticId]], [None] when the key is absent. *)
Definition Result := string -> option (list StatisticDataPoint).

Inductive ResultMessage :=
| SuccessMessage (result : Result)
| ErrorMessage (error : string).

(** [points && points.length > 0] *)
Definition hasPoints (points : option (list StatisticDataPoint)) : bool :=
  match points with
  | Some (_ :: _) => true
  | _ => false
  end.

(** The sum a lookback reply holds for a series: that of the last point. *)
Definition lastSumOf (points : option (list StatisticDataPoint)) : option number :=
  match points with
  | Some (p :: rest) => Some (sum (last rest p))
  | _ => None
  end.

(** [!sum ? 0 : sum] *)
Definition orZero (s : option number) : number :=
  match s with
  | Some v => if truthy v then v else 0%float
  | None => 0%float
  end.

(** ** Promises *)

Inductive Outcome (A : Type) :=
| Resolved (a : A)
| Rejected (reason : string).
Arguments Resolved {A} a.
Arguments Rejected {A} reason.

(** [statisticId.split(':')[0]] *)
Fixpoint beforeColon (s : string) : string :=
  match s with
  | EmptyString => EmptyString
  | String c rest =>
      if Ascii.eqb c ":"%char then EmptyString else String c (beforeColon rest)
  end.

(** [getStatisticId({ prm, isProduction, isCost })] *)
Definition getStatisticId (prm : string) (isProduction isCost : bool) : string :=
  ((if isProduction then "linky_prod" else "linky") ++ ":" ++ prm
     ++ (if isCost then "_cost" else ""))%string.

(** The readings of a hole: [rawData.filter(...)] in [runFill]. *)
Definition holeDataRaw (rawData : list LinkyDataPoint) (hole : Hole) : list LinkyDataPoint :=
  filter (fun pt => negb (isBefore (date pt) (from hole)) && isBefore (date pt) (to hole))
    rawData.

Record MeterConfig (CostConfig : Type) := {
  prm : string;
  meterName : string;
  production : bool;
  costs : option CostConfig
}.
Arguments prm {CostConfig} _.
Arguments meterName {CostConfig} _.
Arguments production {CostConfig} _.
Arguments costs {CostConfig} _.

Section HaLinky.

(** The remote statistics store. *)
Context {St : Type}.
Variable respond : Message -> St -> ResultMessage * St.

(** The clock, [dayjs()], read as one instant for the whole run. *)
Variable now : Timestamp.

(** [format.ts] and [cost.ts] are not part of the sources at hand:
    [formatAsStatistics] and [computeCosts] are parameters, as is the type
    of [config.costs]. *)
Context {CostConfig : Type}.
Variable formatAsStatistics : list LinkyDataPoint -> number -> list StatisticDataPoint.
Variable computeCosts :
  list StatisticDataPoint -> CostConfig -> number -> list StatisticDataPoint.

(** *** The client *)

Record World := {
  store : St;
  sent : list Message
}.

Definition Client (A : Type) : Type := World -> Outcome A * World.

Definition ret {A} (a : A) : Client A := fun w => (Resolved a, w).

Definition bind {A B} (m : Client A) (k : A -> Client B) : Client B :=
  fun w =>
    match m w with
    | (Resolved a, w') => k a w'
    | (Rejected e, w') => (Rejected e, w')
    end.

Notation "x <- m ;; k" := (bind m (fun x => k))
  (at level 61, m at next level, right associativity).
Notation "m ;; k" := (bind m (fun _ => k))
  (at level 61, right associativity).

(** [sendMessage]: the message goes out, and the promise resolves with a
    successful reply or is rejected with an unsuccessful one. *)
Definition sendMessage (message : Message) : Client Result :=
  fun w =>
    let (response, st') := respond message (store w) in
    let w' := {| store := st'; sent := sent w ++ [message] |} in
    match response with
    | SuccessMessage result => (Resolved result, w')
    | ErrorMessage e =>
        (Rejected ("Home Assistant returned an error : " ++ e)%string, w')
    end.

Definition saveStatistics (prm name : string) (isProduction isCost : bool)
    (stats : list StatisticDataPoint) : Client unit :=
  let statisticId := getStatisticId prm isProduction isCost in
  sendMessage
    (import_statistics
       {| has_mean := false;
          has_sum := true;
          name := if isCost then (name ++ " (costs)")%string else name;
          source := beforeColon statisticId;
          statistic_id := statisticId;
          unit_of_measurement := if isCost then "€"%string else "Wh"%string |}
       stats);;
  ret tt.

Definition adjustSum (prm : string) (date : Timestamp) (value : number)
    (isProduction isCost : bool) : Client unit :=
  let statisticId := getStatisticId prm isProduction isCost in
  sendMessage
    (adjust_sum_statistics statisticId date value
       (if isCost then "€"%string else "Wh"%string));;
  ret tt.

(** The loop of [findOldestStatistic], from block [i] down to block [0]. *)
Fixpoint findOldestFrom (i : nat) (statisticId : string)
    : Client (option StatisticDataPoint) :=
  let start_ := startOfDay (addDays (- ((Z.of_nat i + 1) * 7)) now) in
  let end_ := startOfDay (addDays (- (Z.of_nat i * 7)) now) in
  resp <- sendMessage (statistics_during_period start_ end_ [statisticId]);;
  match resp statisticId with
  | Some (p :: _) => ret (Some p)
  | _ =>
      match i with
      | O => ret None
      | S j => findOldestFrom j statisticId
      end
  end.

Definition findOldestStatistic (statisticId : string)
    : Client (option StatisticDataPoint) :=
  findOldestFrom (3 * 51) statisticId.

Definition fetchLastSum (day_ : Timestamp) (statisticId : string)
    : Client (option number) :=
  resp <- sendMessage
            (statistics_during_period (addDays (-1) day_) day_ [statisticId]);;
  match resp statisticId with
  | Some (p :: rest) => ret (Some (sum (last rest p)))
  | _ => ret None
  end.

(** *** The gap scanner

    [missingDayRanges] is an async generator, and both its callers consume
    it with [for await (const hole of ...) { body }] and never leave the
    loop early. It is modelled with its consumer: at a [yield] the loop
    body runs on the world, the generator resumes when the body resolves,
    and a rejection of the body ends the generator and the loop.

    Next to the world the generator keeps a history of what it did, which
    the consumer cannot touch: the days its outer loop queried, the days
    its inner loop queried, each with the points it was given, and the
    holes it yielded. *)

Inductive Event :=
| Examine (cursor : Timestamp) (points : option (list StatisticDataPoint))
| Extend (cursor : Timestamp) (nxtPoints : option (list StatisticDataPoint))
| Yield (hole : Hole).

(** [None] is the one outcome the source does not have: the fuel of a
    loop ran out. *)
Definition Gen (A : Type) : Type :=
  list Event * World -> option (Outcome A) * (list Event * World).

Definition retG {A} (a : A) : Gen A := fun s => (Some (Resolved a), s).

Definition bindG {A B} (m : Gen A) (k : A -> Gen B) : Gen B :=
  fun s =>
    match m s with
    | (Some (Resolved a), s') => k a s'
    | (Some (Rejected e), s') => (Some (Rejected e), s')
    | (None, s') => (None, s')
    end.

Notation "x <~ m ;; k" := (bindG m (fun x => k))
  (at level 61, m at next level, right associativity).
Notation "m ;;; k" := (bindG m (fun _ => k))
  (at level 61, right associativity).

Definition await {A} (c : Client A) : Gen A :=
  fun s => let (r, w') := c (snd s) in (Some r, (fst s, w')).

Definition note (e : Event) : Gen unit :=
  fun s => (Some (Resolved tt), (fst s ++ [e], snd s)).

Definition outOfFuel {A} : Gen A := fun s => (None, s).

Definition today : Timestamp := startOfDay now.

(** Fuel for a loop that moves [cursor] one day forward at each turn and
    stops past [today]. *)
Definition daysLeft (cursor : Timestamp) : nat :=
  Z.to_nat ((today - cursor) / day + 1).

Section Scanner.

(** The body of the consuming [for await] loop. *)
Variable body : Hole -> Client unit.

Variable prm_ : string.
Variable isProduction : bool.

Definition yield (hole : Hole) : Gen unit :=
  note (Yield hole);;; await (body hole).

(** The inner [while (true)] loop, entered with the cursor on the first
    day of the hole; it returns the cursor it leaves the loop with. *)
Fixpoint extendHole (fuel : nat) (holeStart cursor : Timestamp) : Gen Timestamp :=
  let statisticId := getStatisticId prm_ isProduction false in
  let cursor := addDays 1 cursor in
  if isAfter cursor today then retG cursor
  else
    match fuel with
    | O => outOfFuel
    | S fuel' =>
        nxtResp <~ await (sendMessage
                     (statistics_during_period cursor (addDays 1 cursor) [statisticId]));;
        let nxtPoints := nxtResp statisticId in
        note (Extend cursor nxtPoints);;;
        match nxtPoints with
        | Some (p :: _) =>
            sum_ <~ await (fetchLastSum holeStart statisticId);;
            let next_ := start p in
            costs_ <~ await (fetchLastSum holeStart
                               (getStatisticId prm_ isProduction true));;
            yield {| from := holeStart;
                     to := cursor;
                     lastSum := orZero sum_;
                     lastCost := costs_;
                     next := next_ |};;;
            retG cursor
        | _ => extendHole fuel' holeStart cursor
        end
    end.

(** The outer [while (cursor.isBefore(today))] loop. *)
Fixpoint scan (fuel : nat) (cursor : Timestamp) : Gen unit :=
  let statisticId := getStatisticId prm_ isProduction false in
  if isBefore cursor today then
    match fuel with
    | O => outOfFuel
    | S fuel' =>
        resp <~ await (sendMessage
                  (statistics_during_period cursor cursor [statisticId]));;
        let points := resp statisticId in
        note (Examine cursor points);;;
        if hasPoints points then scan fuel' (addDays 1 cursor)
        else
          cursor' <~ extendHole (daysLeft cursor) cursor cursor;;
          scan fuel' cursor'
    end
  else retG tt.

(** [startDay] is [None] when the argument is absent (or the empty
    string), and the instant the string parses to otherwise. *)
Definition missingDayRanges (startDay : option Timestamp) : Gen unit :=
  let statisticId := getStatisticId prm_ isProduction false in
  match startDay with
  | Some d =>
      let cursor := startOfDay d in
      scan (daysLeft cursor) cursor
  | None =>
      oldest <~ await (findOldestStatistic statisticId);;
      match oldest with
      | None => retG tt
      | Some p =>
          let cursor := startOfDay (addDays 1 (start p)) in
          scan (daysLeft cursor) cursor
      end
  end.

(** *** What a scan can leave in its history

    The history of [extendHole] and of [scan], as relations that follow
    the two loops turn by turn. The last index of [extending] is the
    cursor the inner loop hands back, [None] when a rejection ended it;
    the last index of [scanning] says whether the outer loop ran to its
    exit. *)

(** What is known of the store when a scan starts and stays true of it
    while the scan runs. *)
Variable known : St -> Prop.

(** The two lookback queries that give a hole its baselines were answered
    one after the other by the store, in a state [known] holds of. *)
Definition baselines (hole : Hole) : Prop :=
  exists (st1 st2 st3 : St) (r1 r2 : Result),
    known st1
    /\ respond (statistics_during_period (from hole - day) (from hole)
                  [getStatisticId prm_ isProduction false]) st1
         = (SuccessMessage r1, st2)
    /\ respond (statistics_during_period (from hole - day) (from hole)
                  [getStatisticId prm_ isProduction true]) st2
         = (SuccessMessage r2, st3)
    /\ lastSum hole = orZero (lastSumOf (r1 (getStatisticId prm_ isProduction false)))
    /\ lastCost hole = lastSumOf (r2 (getStatisticId prm_ isProduction true)).

Inductive extending (holeStart : Timestamp)
    : Timestamp -> list Event -> option Timestamp -> Prop :=
| extending_past cursor :
    today < cursor + day ->
    extending holeStart cursor [] (Some (cursor + day))
| extending_query_rejected cursor :
    cursor + day <= today ->
    extending holeStart cursor [] None
| extending_empty cursor nxtPoints t r :
    cursor + day <= today ->
    hasPoints nxtPoints = false ->
    extending holeStart (cursor + day) t r ->
    extending holeStart cursor (Extend (cursor + day) nxtPoints :: t) r
| extending_lookup_rejected cursor nxtPoints :
    cursor + day <= today ->
    hasPoints nxtPoints = true ->
    extending holeStart cursor [Extend (cursor + day) nxtPoints] None
| extending_close cursor p rest hole (resumed : bool) :
    cursor + day <= today ->
    from hole = holeStart ->
    to hole = cursor + day ->
    next hole = start p ->
    baselines hole ->
    extending holeStart cursor
      [Extend (cursor + day) (Some (p :: rest)); Yield hole]
      (if resumed then Some (cursor + day) else None).

Inductive scanning : Timestamp -> list Event -> bool -> Prop :=
| scanning_done cursor :
    today <= cursor ->
    scanning cursor [] true
| scanning_query_rejected cursor :
    cursor < today ->
    scanning cursor [] false
| scanning_data cursor points t finished :
    cursor < today ->
    hasPoints points = true ->
    scanning (cursor + day) t finished ->
    scanning cursor (Examine cursor points :: t) finished
| scanning_hole cursor points t1 cursor' t2 finished :
    cursor < today ->
    hasPoints points = false ->
    extending cursor cursor t1 (Some cursor') ->
    scanning cursor' t2 finished ->
    scanning cursor (Examine cursor points :: t1 ++ t2) finished
| scanning_hole_rejected cursor points t1 :
    cursor < today ->
    hasPoints points = false ->
    extending cursor cursor t1 None ->
    scanning cursor (Examine cursor points :: t1) false.

End Scanner.

(** [logMissingRanges]: the loop body only writes a debug line. *)
Definition logMissingRanges (prm_ : string) (isProduction : bool)
    (startDay : option Timestamp) : Gen unit :=
  missingDayRanges (fun _ => ret tt) prm_ isProduction startDay.

(** *** The backfill driver *)

(** The body of the [for await] loop of [runFill]. *)
Definition fillHole (config : MeterConfig CostConfig) (rawData : list LinkyDataPoint)
    (hole : Hole) : Client unit :=
  match holeDataRaw rawData hole with
  | [] => ret tt
  | _ :: _ =>
      let holeStats := formatAsStatistics (holeDataRaw rawData hole) (lastSum hole) in
      saveStatistics (prm config) (meterName config) (production config) false holeStats;;
      match holeStats with
      | [] => ret tt
      | s :: rest =>
          let delta := (sum (last rest s) - lastSum hole)%float in
          adjustSum (prm config) (next hole) delta (production config) false
      end;;
      match costs config, lastCost hole with
      | Some costs_, Some lastCost_ =>
          if truthy lastCost_ then
            let costStats := computeCosts holeStats costs_ lastCost_ in
            match costStats with
            | [] => ret tt
            | c :: rest =>
                saveStatistics (prm config) (meterName config) (production config) true
                  costStats;;
                let deltaCost := (sum (last rest c) - lastCost_)%float in
                adjustSum (prm config) (next hole) deltaCost (production config) true
            end
          else ret tt
      | _, _ => ret tt
      end
  end.

Definition runFill (config : MeterConfig CostConfig) (rawData : list LinkyDataPoint)
    (startDay : option Timestamp) : Gen unit :=
  missingDayRanges (fillHole config rawData) (prm config) (production config) startDay.

End HaLinky.


Arguments World : clear implicits.
Arguments Client : clear implicits.
Arguments Gen : clear implicits.

(** ** Reading a run *)

(** The cursor an outcome of [extendHole] hands back. *)
Definition handedBack (o : Outcome Timestamp) : option Timestamp :=
  match o with
  | Resolved c => Some c
  | Rejected _ => None
  end.

Definition isResolved {A} (o : Outcome A) : bool :=
  match o with
  | Resolved _ => true
  | Rejected _ => false
  end.

(** The history a run of the generator ends with. *)
Definition history {St A} (r : option (Outcome A) * (list Event * World St)) : list Event :=
  fst (snd r).

(** The holes of a history, in the order they were yielded. *)
Definition holesOf (t : list Event) : list Hole :=
  flat_map (fun e => match e with Yield h => [h] | _ => [] end) t.

(** The days the outer loop queried, the days the inner loop queried, and
    both, in the order of the queries. *)
Definition examined (t : list Event) : list Timestamp :=
  flat_map (fun e => match e with Examine c _ => [c] | _ => [] end) t.

Definition extended (t : list Event) : list Timestamp :=
  flat_map (fun e => match e with Extend c _ => [c] | _ => [] end) t.

Definition cursors (t : list Event) : list Timestamp :=
  flat_map (fun e => match e with Examine c _ | Extend c _ => [c] | Yield _ => [] end) t.

(** The messages sent between two worlds of one run. *)
Definition issued {St} (w w' : World St) : list Message :=
  skipn (List.length (sent w)) (sent w').

Definition isAdjustOf (id : string) (m : Message) : bool :=
  match m with
  | adjust_sum_statistics id' _ _ _ => String.eqb id' id
  | _ => false
  end.

Definition isImportOf (id : string) (m : Message) : bool :=
  match m with
  | import_statistics md _ => String.eqb (statistic_id md) id
  | _ => false
  end.

(** The same meter without a cost configuration. *)
Definition noCosts {CostConfig} (config : MeterConfig CostConfig) : MeterConfig CostConfig :=
  {| prm := prm config;
     meterName := meterName config;
     production := production config;
     costs := None |}.

(** The metadata [saveStatistics] sends with the points of a series. *)
Definition metadataOf (prm_ name_ : string) (isProduction isCost : bool) : Metadata :=
  {| has_mean := false;
     has_sum := true;
     name := if isCost then (name_ ++ " (costs)")%string else name_;
     source := beforeColon (getStatisticId prm_ isProduction isCost);
     statistic_id := getStatisticId prm_ isProduction isCost;
     unit_of_measurement := if isCost then "€"%string else "Wh"%string |}.

(** ** The locator, in the words of its contract *)

(** The query of block [i]: the seven days that end [7 i] days before
    today. *)
Definition blockQuery (now : Timestamp) (statisticId : string) (i : nat) : Message :=
  statistics_during_period
    (today now - (Z.of_nat i + 1) * 7 * day)
    (today now - Z.of_nat i * 7 * day)
    [statisticId].

(** The blocks from [i] down to [0], oldest first. *)
Fixpoint blocksFrom (i : nat) : list nat :=
  match i with
  | O => [O]
  | S j => i :: blocksFrom j
  end.

(** The first point of the oldest block that has points, the blocks given
    oldest first. *)
Fixpoint firstOfOldestBlock (blocks : list (option (list StatisticDataPoint)))
    : option StatisticDataPoint :=
  match blocks with
  | [] => None
  | Some (p :: _) :: _ => Some p
  | _ :: newer => firstOfOldestBlock newer
  end.

(** ** Days *)

(** The [n] days from [cursor] on. *)
Definition daysFrom (cursor : Timestamp) (n : nat) : list Timestamp :=
  map (fun k => cursor + Z.of_nat k * day) (seq 0 n).

(** A query of the inner loop that found no point. *)
Definition foundEmpty (e : Event) : bool :=
  match e with
  | Extend _ nxtPoints => negb (hasPoints nxtPoints)
  | _ => false
  end.

(** * The rest of the client

    [isNewPRM], [findLastStatistic] and [purge] send two more kinds of
    message, and [sendMessage] stamps every message with the next request
    id. They are modelled over a session that keeps the counter, with the
    store answering each kind of message in its own shape. *)

Inductive Request :=
| recorder (message : Message)
| list_statistic_ids (statistic_type : string)
| clear_statistics (statistic_ids : list string).

(** The reply to [recorder/list_statistic_ids]: the [statistic_id] of each
    statistic listed, or an error. *)
Inductive IdsMessage :=
| IdsSuccess (result : list string)
| IdsError (error : string).

(** The reply to [recorder/clear_statistics]. *)
Inductive ClearMessage :=
| ClearSuccess
| ClearError (error : string).

Section Session.

Context {St : Type}.
Variable respond : Message -> St -> ResultMessage * St.
Variable respondIds : string -> St -> IdsMessage * St.
Variable respondClear : list string -> St -> ClearMessage * St.
Variable now : Timestamp.

Record Session := {
  recorderState : St;
  messageId : Z;
  posted : list (Z * Request)
}.

Definition Call (A : Type) : Type := Session -> Outcome A * Session.

Definition retS {A} (a : A) : Call A := fun s => (Resolved a, s).

Definition bindS {A B} (m : Call A) (k : A -> Call B) : Call B :=
  fun s =>
    match m s with
    | (Resolved a, s') => k a s'
    | (Rejected e, s') => (Rejected e, s')
    end.

Notation "x <- m ;; k" := (bindS m (fun x => k))
  (at level 61, m at next level, right associativity).
Notation "m ;; k" := (bindS m (fun _ => k))
  (at level 61, right associativity).

(** [sendMessage], with [message.id = this.messageId++]; [answer] is the
    store's reply to the message, [inr] for an unsuccessful one. *)
Definition post {A} (request : Request) (answer : St -> (A + string) * St) : Call A :=
  fun s =>
    let (reply, st') := answer (recorderState s) in
    let s' := {| recorderState := st';
                 messageId := messageId s + 1;
                 posted := posted s ++ [(messageId s, request)] |} in
    match reply with
    | inl result => (Resolved result, s')
    | inr e => (Rejected ("Home Assistant returned an error : " ++ e)%string, s')
    end.

Definition postRecorder (message : Message) : Call Result :=
  post (recorder message)
    (fun st =>
       let (reply, st') := respond message st in
       (match reply with
        | SuccessMessage result => inl result
        | ErrorMessage e => inr e
        end, st')).

Definition postListIds (statistic_type : string) : Call (list string) :=
  post (list_statistic_ids statistic_type)
    (fun st =>
       let (reply, st') := respondIds statistic_type st in
       (match reply with
        | IdsSuccess result => inl result
        | IdsError e => inr e
        end, st')).

Definition postClear (statistic_ids : list string) : Call unit :=
  post (clear_statistics statistic_ids)
    (fun st =>
       let (reply, st') := respondClear statistic_ids st in
       (match reply with
        | ClearSuccess => inl tt
        | ClearError e => inr e
        end, st')).

(** [!ids.result.find((statistic) => statistic.statistic_id === statisticId)] *)
Definition isNewPRM (prm_ : string) (isProduction isCost : bool) : Call bool :=
  let statisticId := getStatisticId prm_ isProduction isCost in
  ids <- postListIds "sum";;
  retS (negb (existsb (fun statistic_id => String.eqb statistic_id statisticId) ids)).

(** The loop of [findLastStatistic] from block [i] on, with [remaining]
    blocks to go up to block 51. *)
Fixpoint findLastFrom (remaining i : nat) (statisticId : string)
    : Call (option StatisticDataPoint) :=
  match remaining with
  | O => retS None
  | S remaining' =>
      let start_time := startOfDay (addDays (- ((Z.of_nat i + 1) * 7)) now) in
      let end_time := startOfDay (addDays (- (Z.of_nat i * 7)) now) in
      data <- postRecorder (statistics_during_period start_time end_time [statisticId]);;
      match data statisticId with
      | Some (p :: rest) => retS (Some (last rest p))
      | _ => findLastFrom remaining' (S i) statisticId
      end
  end.

Definition findLastStatistic (prm_ : string) (isProduction isCost : bool)
    : Call (option StatisticDataPoint) :=
  isNew <- isNewPRM prm_ isProduction isCost;;
  if isNew then retS None
  else findLastFrom 52 0 (getStatisticId prm_ isProduction isCost).

Definition purge (prm_ : string) (isProduction : bool) : Call unit :=
  let statisticId := getStatisticId prm_ isProduction false in
  let statisticIdWithCost := getStatisticId prm_ isProduction true in
  postClear [statisticId; statisticIdWithCost].

End Session.

Arguments Session : clear implicits.
Arguments Call : clear implicits.

(** The last point of the newest block that has points, the blocks given
    newest first. *)
Fixpoint lastOfNewestBlock (blocks : list (option (list StatisticDataPoint)))
    : option StatisticDataPoint :=
  match blocks with
  | [] => None
  | Some (p :: rest) :: _ => Some (last rest p)
  | _ :: older => lastOfNewestBlock older
  end.

(** The request ids from [id] on. *)
Definition idsFrom (id : Z) (n : nat) : list Z :=
  map (fun k => id + Z.of_nat k) (seq 0 n).

(** What was posted between two sessions of one run. *)
Definition postedSince {St} (s s' : Session St) : list (Z * Request) :=
  skipn (List.length (posted s)) (posted s').

(** * A recorder to run the client against

    A small statistics store in the manner of Home Assistant's recorder, for
    running the model on concrete inputs: a table of points per series, a
    range query that selects [start_time <= start < end_time] and leaves the
    key out when nothing is selected, an import that adds points, and an
    adjustment that moves the sums from a timestamp on. *)

Module Recorder.

Definition Db := list (string * StatisticDataPoint).

Definition during (db : Db) (id : string) (s e : Timestamp) : list StatisticDataPoint :=
  map snd
    (filter (fun r => String.eqb (fst r) id && (s <=? start (snd r)) && (start (snd r) <? e))
       db).

Definition adjust (id : string) (t : Timestamp) (delta : number)
    (r : string * StatisticDataPoint) : string * StatisticDataPoint :=
  if String.eqb (fst r) id && (t <=? start (snd r))
  then (fst r, {| start := start (snd r);
                  state := state (snd r);
                  sum := (sum (snd r) + delta)%float |})
  else r.

Definition respond (m : Message) (db : Db) : ResultMessage * Db :=
  match m with
  | statistics_during_period s e ids =>
      (SuccessMessage
         (fun id =>
            if existsb (String.eqb id) ids
            then match during db id s e with
                 | [] => None
                 | pts => Some pts
                 end
            else None),
       db)
  | import_statistics md stats =>
      (SuccessMessage (fun _ => None), db ++ map (pair (statistic_id md)) stats)
  | adjust_sum_statistics id t delta _ =>
      (SuccessMessage (fun _ => None), map (adjust id t delta) db)
  end.

(** A point of day [d] (days since the epoch), at midnight. *)
Definition point (d : Z) (s : number) : StatisticDataPoint :=
  {| start := d * day; state := s; sum := s |}.

Definition world (db : Db) : World Db := {| store := db; sent := [] |}.

(** The ids of the series that have points. *)
Definition respondIds (statistic_type : string) (db : Db) : IdsMessage * Db :=
  (IdsSuccess (map fst db), db).

Definition respondClear (statistic_ids : list string) (db : Db) : ClearMessage * Db :=
  (ClearSuccess,
   filter (fun r => negb (existsb (String.eqb (fst r)) statistic_ids)) db).

(** A store that has one point for whatever range it is asked about. *)
Definition respondEveryDay (m : Message) (db : Db) : ResultMessage * Db :=
  match m with
  | statistics_during_period s e ids =>
      (SuccessMessage (fun _ => Some [{| start := s; state := 1%float; sum := 1%float |}]), db)
  | _ => respond m db
  end.

(** The same store, refusing every import. *)
Definition respondNoImport (m : Message) (db : Db) : ResultMessage * Db :=
  match m with
  | import_statistics _ _ => (ErrorMessage "import refused", db)
  | _ => respond m db
  end.

Definition session (db : Db) (id : Z) : Session Db :=
  {| recorderState := db; messageId := id; posted := [] |}.

End Recorder.

(** * Sample inputs *)

Module Sample.

(** 01:00 on day 2000. *)
Definition now : Timestamp := 2000 * day + 3600000.

Definition meter : string := "123".
Definition energyId : string := getStatisticId meter false false.
Definition costId : string := getStatisticId meter false true.

(** Energy points on days 1996 and 1998, and no cost series. *)
Definition gapDb : Recorder.Db :=
  [(energyId, Recorder.point 1996 5%float); (energyId, Recorder.point 1998 9%float)].

(** One energy point, today. *)
Definition todayDb : Recorder.Db := [(energyId, Recorder.point 2000 5%float)].

(** One energy point, 1074 days before today: more than 153 weeks. *)
Definition oldDb : Recorder.Db := [(energyId, Recorder.point 926 5%float)].

(** Modelled from the spec: [formatAsStatistics] of [format.ts], which is
    not among the sources. The readings become points whose sums run on
    from the baseline. *)
Fixpoint formatAsStatistics (data : list LinkyDataPoint) (lastSum_ : number)
    : list StatisticDataPoint :=
  match data with
  | [] => []
  | pt :: rest =>
      let sum_ := (lastSum_ + value pt)%float in
      {| start := date pt; state := value pt; sum := sum_ |}
        :: formatAsStatistics rest sum_
  end.

(** Modelled from the spec: [computeCosts] of [cost.ts], which is not
    among the sources. A cost configuration is a price per unit; each
    point costs its state at that price, and the sums run on from the
    baseline. *)
Fixpoint computeCosts (stats : list StatisticDataPoint) (price lastCost_ : number)
    : list StatisticDataPoint :=
  match stats with
  | [] => []
  | p :: rest =>
      let cost := (state p * price)%float in
      let sum_ := (lastCost_ + cost)%float in
      {| start := start p; state := cost; sum := sum_ |} :: computeCosts rest price sum_
  end.

Definition config : MeterConfig number :=
  {| prm := meter; meterName := "Linky"; production := false; costs := Some 0.5%float |}.

(** One reading, on day 1997. *)
Definition rawData : list LinkyDataPoint := [{| date := 1997 * day; value := 80%float |}].

(** The day 1997 as a hole, with the baselines given. *)
Definition hole (lastSum_ : number) (lastCost_ : option number) : Hole :=
  {| from := 1997 * day;
     to := 1998 * day;
     lastSum := lastSum_;
     lastCost := lastCost_;
     next := 1998 * day |}.

(** The day 1998 as a hole: no reading falls in it. *)
Definition laterHole : Hole :=
  {| from := 1998 * day;
     to := 1999 * day;
     lastSum := 0%float;
     lastCost := None;
     next := 1999 * day |}.

Definition fill :=
  fillHole Recorder.respond formatAsStatistics computeCosts config rawData.

(** A scan from day 1997 that only logs, over [gapDb]. *)
Definition gapScan :=
  logMissingRanges Recorder.respond now meter false (Some (1997 * day))
    ([], Recorder.world gapDb).

(** A scan from day 1999 that only logs, over [todayDb]. *)
Definition todayScan :=
  logMissingRanges Recorder.respond now meter false (Some (1999 * day))
    ([], Recorder.world todayDb).

End Sample.

(** * Properties *)

Lemma day_pos : 0 < day.
Proof. reflexivity. Qed.

Lemma addDays_1 (t : Timestamp) : addDays 1 t = t + day.
Proof. unfold addDays. lia. Qed.

Lemma addDays_m1 (t : Timestamp) : addDays (-1) t = t - day.
Proof. unfold addDays. lia. Qed.

Lemma isAfter_spec (a b : Timestamp) : isAfter a b = true <-> b < a.
Proof. unfold isAfter. apply Z.ltb_lt. Qed.

Lemma isBefore_spec (a b : Timestamp) : isBefore a b = true <-> a < b.
Proof. unfold isBefore. apply Z.ltb_lt. Qed.

(** Two sorted lists, every element of the first below every element of the
    second, make a sorted list. *)
Lemma StronglySorted_append {A} (R : A -> A -> Prop) (l1 l2 : list A) :
  StronglySorted R l1 ->
  StronglySorted R l2 ->
  (forall x y, In x l1 -> In y l2 -> R x y) ->
  StronglySorted R (l1 ++ l2).
Proof.
  intros H1 H2 H12. induction H1 as [| a l1 Hl1 IH Ha]; cbn [app].
  - exact H2.
  - constructor.
    + apply IH. intros x y Hx Hy. apply H12; [now right | exact Hy].
    + apply Forall_app. split; [exact Ha |].
      apply Forall_forall. intros y Hy. apply H12; [now left | exact Hy].
Qed.

Lemma holesOf_app (t1 t2 : list Event) : holesOf (t1 ++ t2) = holesOf t1 ++ holesOf t2.
Proof. apply flat_map_app. Qed.

Lemma examined_app (t1 t2 : list Event) : examined (t1 ++ t2) = examined t1 ++ examined t2.
Proof. apply flat_map_app. Qed.

Lemma extended_app (t1 t2 : list Event) : extended (t1 ++ t2) = extended t1 ++ extended t2.
Proof. apply flat_map_app. Qed.

Lemma cursors_app (t1 t2 : list Event) : cursors (t1 ++ t2) = cursors t1 ++ cursors t2.
Proof. apply flat_map_app. Qed.

Lemma length_append (s1 s2 : string) :
  String.length (s1 ++ s2) = (String.length s1 + String.length s2)%nat.
Proof. induction s1 as [| c s1 IH]; cbn; [reflexivity | now rewrite IH]. Qed.

(** The cost series and the energy series of a meter have different ids. *)
Lemma cost_id_not_energy_id (prm_ : string) (isProduction : bool) :
  String.eqb (getStatisticId prm_ isProduction true) (getStatisticId prm_ isProduction false)
    = false.
Proof.
  apply String.eqb_neq. intros H. apply (f_equal String.length) in H.
  unfold getStatisticId in H. rewrite !length_append in H. cbn in H. lia.
Qed.

Lemma energy_id_not_cost_id (prm_ : string) (isProduction : bool) :
  String.eqb (getStatisticId prm_ isProduction false) (getStatisticId prm_ isProduction true)
    = false.
Proof. rewrite String.eqb_sym. apply cost_id_not_energy_id. Qed.

Section Properties.

Context {St : Type}.
Variable respond : Message -> St -> ResultMessage * St.
Variable now : Timestamp.

(** A query that the generator awaits, by cases on the reply. *)
Lemma await_sendMessage (m : Message) (evs : list (Event)) (w : World St) :
  await (sendMessage respond m) (evs, w) =
    match respond m (store w) with
    | (SuccessMessage result, st') =>
        (Some (Resolved result), (evs, {| store := st'; sent := sent w ++ [m] |}))
    | (ErrorMessage e, st') =>
        (Some (Rejected ("Home Assistant returned an error : " ++ e)%string),
         (evs, {| store := st'; sent := sent w ++ [m] |}))
    end.
Proof.
  unfold await, sendMessage. cbn [fst snd].
  destruct (respond m (store w)) as [[result | e] st']; reflexivity.
Qed.

Lemma await_fetchLastSum (d : Timestamp) (id : string) (evs : list Event) (w : World St) :
  await (fetchLastSum respond d id) (evs, w) =
    match respond (statistics_during_period (d - day) d [id]) (store w) with
    | (SuccessMessage result, st') =>
        (Some (Resolved (lastSumOf (result id))),
         (evs, {| store := st';
                  sent := sent w ++ [statistics_during_period (d - day) d [id]] |}))
    | (ErrorMessage e, st') =>
        (Some (Rejected ("Home Assistant returned an error : " ++ e)%string),
         (evs, {| store := st';
                  sent := sent w ++ [statistics_during_period (d - day) d [id]] |}))
    end.
Proof.
  unfold await, fetchLastSum, bind, sendMessage. cbn [fst snd].
  rewrite addDays_m1.
  destruct (respond _ (store w)) as [[result | e] st']; [| reflexivity].
  unfold lastSumOf. destruct (result id) as [[| p rest] |]; reflexivity.
Qed.

(** *** The locator *)

Lemma startOfDay_addDays (n : Z) :
  startOfDay (addDays n now) = today now + n * day.
Proof.
  unfold startOfDay, addDays, today, startOfDay.
  rewrite Z_mod_plus_full. lia.
Qed.

Lemma issued_app (w w' : World St) (l : list Message) :
  sent w' = sent w ++ l -> issued w w' = l.
Proof.
  intros H. unfold issued. rewrite H, skipn_app, skipn_all, Nat.sub_diag. reflexivity.
Qed.

(** One turn of the locator's loop, by cases on the reply. *)
Lemma findOldestFrom_turn (statisticId : string) (i : nat) (w : World St) :
  findOldestFrom respond now i statisticId w =
    match respond (blockQuery now statisticId i) (store w) with
    | (SuccessMessage r, st') =>
        let w' := {| store := st'; sent := sent w ++ [blockQuery now statisticId i] |} in
        match r statisticId with
        | Some (p :: _) => (Resolved (Some p), w')
        | _ =>
            match i with
            | O => (Resolved None, w')
            | S j => findOldestFrom respond now j statisticId w'
            end
        end
    | (ErrorMessage e, st') =>
        (Rejected ("Home Assistant returned an error : " ++ e)%string,
         {| store := st'; sent := sent w ++ [blockQuery now statisticId i] |})
    end.
Proof.
  assert (Hq : statistics_during_period
                 (startOfDay (addDays (- ((Z.of_nat i + 1) * 7)) now))
                 (startOfDay (addDays (- (Z.of_nat i * 7)) now)) [statisticId]
               = blockQuery now statisticId i).
  { rewrite !startOfDay_addDays. unfold blockQuery. f_equal; lia. }
  destruct i as [| i]; cbn [findOldestFrom]; unfold bind, sendMessage; rewrite Hq;
    destruct (respond _ (store w)) as [[r | e] st']; try reflexivity;
    destruct (r statisticId) as [[| p rest] |]; reflexivity.
Qed.

Lemma findOldestFrom_blocks (statisticId : string) (st : St) (i : nat) :
  forall w : World St,
    store w = st ->
    (forall s e ids st0, snd (respond (statistics_during_period s e ids) st0) = st0) ->
    (forall j, (j <= i)%nat ->
       exists r, fst (respond (blockQuery now statisticId j) st) = SuccessMessage r) ->
    let block j :=
      match fst (respond (blockQuery now statisticId j) st) with
      | SuccessMessage r => r statisticId
      | ErrorMessage _ => None
      end in
    let res := findOldestFrom respond now i statisticId w in
    fst res = Resolved (firstOfOldestBlock (map block (blocksFrom i)))
    /\ store (snd res) = st
    /\ exists k, (k <= S i)%nat
                 /\ sent (snd res)
                    = sent w ++ map (blockQuery now statisticId) (firstn k (blocksFrom i)).
Proof.
  induction i as [| i IH]; intros w Hst Hro Hok block res; subst res block st;
    rewrite findOldestFrom_turn.
  - destruct (Hok O (Nat.le_refl _)) as (r & Hr).
    pose proof (Hro _ _ _ (store w)
                  : snd (respond (blockQuery now statisticId 0) (store w)) = store w) as Hsame.
    cbn [blocksFrom map firstOfOldestBlock].
    destruct (respond (blockQuery now statisticId 0) (store w)) as [reply st'].
    cbn [fst snd] in *. subst reply st'.
    destruct (r statisticId) as [[| p rest] |]; cbn [fst snd store sent];
      (split; [reflexivity | split; [reflexivity |]]);
      exists 1%nat; split; auto.
  - destruct (Hok (S i) (Nat.le_refl _)) as (r & Hr).
    pose proof (Hro _ _ _ (store w)
                  : snd (respond (blockQuery now statisticId (S i)) (store w)) = store w)
      as Hsame.
    cbn [blocksFrom map firstOfOldestBlock].
    destruct (respond (blockQuery now statisticId (S i)) (store w)) as [reply st'] eqn:Hreply.
    cbn [fst snd] in *. subst reply st'.
    destruct (IH {| store := store w;
                    sent := sent w ++ [blockQuery now statisticId (S i)] |}
                eq_refl Hro (fun j Hj => Hok j (Nat.le_trans _ _ _ Hj (Nat.le_succ_diag_r i))))
      as (Hres & Hstore & k & Hk & Hsent).
    cbn [store sent] in Hres, Hstore, Hsent.
    destruct (r statisticId) as [[| p rest] |]; cbn [fst snd store sent].
    + split; [exact Hres | split; [exact Hstore |]].
      exists (S k). split; [lia |]. rewrite Hsent. cbn [firstn map].
      now rewrite <- app_assoc.
    + split; [reflexivity | split; [reflexivity |]].
      exists 1%nat. split; [lia |]. reflexivity.
    + split; [exact Hres | split; [exact Hstore |]].
      exists (S k). split; [lia |]. rewrite Hsent. cbn [firstn map].
      now rewrite <- app_assoc.
Qed.

(** C8, amended. Against a store that answers every query and is left
    as it is by queries, the locator resolves with the first point of the
    oldest block that has points among the 154 seven-day blocks
    [[today - 7 (i + 1) days, today - 7 i days)], [i] from 153 down to 0,
    which reach 154 weeks back, and with no point when all 154 are empty;
    what it sends are the queries of these blocks, oldest first, up to the
    block it stops at. *)
Theorem oldest_point_of_oldest_block (statisticId : string) (w : World St) :
  (forall s e ids st0, snd (respond (statistics_during_period s e ids) st0) = st0) ->
  (forall j, (j <= 153)%nat ->
     exists r, fst (respond (blockQuery now statisticId j) (store w)) = SuccessMessage r) ->
  let block j :=
    match fst (respond (blockQuery now statisticId j) (store w)) with
    | SuccessMessage r => r statisticId
    | ErrorMessage _ => None
    end in
  let res := findOldestStatistic respond now statisticId w in
  fst res = Resolved (firstOfOldestBlock (map block (rev (seq 0 154))))
  /\ exists k, (k <= 154)%nat
               /\ issued w (snd res)
                  = map (blockQuery now statisticId) (firstn k (rev (seq 0 154))).
Proof.
  intros Hro Hok block res.
  change (rev (seq 0 154)) with (blocksFrom 153).
  destruct (findOldestFrom_blocks statisticId (store w) 153 w eq_refl Hro Hok)
    as (Hres & _ & k & Hk & Hsent).
  split; [exact Hres |].
  exists k. split; [exact Hk |]. now apply issued_app.
Qed.

Section ScannerProperties.

Variable body : Hole -> Client St unit.
Variable prm_ : string.
Variable isProduction : bool.

(** A property of the store that the queries and the consumer keep. *)
Variable known : St -> Prop.
Hypothesis known_query :
  forall s e ids st, known st -> known (snd (respond (statistics_during_period s e ids) st)).
Hypothesis known_body :
  forall hole w, known (store w) -> known (store (snd (body hole w))).

Ltac known_after H Hk Hk1 :=
  match type of H with
  | context [respond (statistics_during_period ?a ?b ?c) ?st] =>
      pose proof (known_query a b c st Hk) as Hk1
  end.

Ltac known_next Hk Hk1 :=
  match goal with
  | |- context [respond (statistics_during_period ?a ?b ?c) ?st] =>
      pose proof (known_query a b c st Hk) as Hk1
  end.

Lemma findOldestFrom_known (statisticId : string) (i : nat) :
  forall w : World St,
    known (store w) -> known (store (snd (findOldestFrom respond now i statisticId w))).
Proof.
  induction i as [| i IH]; intros w Hk; rewrite findOldestFrom_turn;
    unfold blockQuery; known_next Hk Hk1;
    destruct (respond _ (store w)) as [[r | e] st']; cbn [snd] in Hk1;
    try exact Hk1;
    destruct (r statisticId) as [[| p rest] |]; cbn [snd store]; try exact Hk1;
    now apply IH.
Qed.

Lemma findOldestStatistic_known (statisticId : string) (w : World St) :
  known (store w) -> known (store (snd (findOldestStatistic respond now statisticId w))).
Proof. unfold findOldestStatistic. apply findOldestFrom_known. Qed.

(** [extendHole] only adds to the history, and what it adds is a history
    of the inner loop. *)
Lemma extendHole_extending (fuel : nat) :
  forall holeStart cursor evs w o evs' w',
    known (store w) ->
    extendHole respond now body prm_ isProduction fuel holeStart cursor (evs, w)
      = (Some o, (evs', w')) ->
    known (store w')
    /\ exists t, evs' = evs ++ t
                 /\ extending respond now prm_ isProduction known holeStart cursor t
                      (handedBack o).
Proof.
  induction fuel as [| fuel IH]; intros holeStart cursor evs w o evs' w' Hk H;
    cbn [extendHole] in H; rewrite addDays_1 in H.
  - destruct (isAfter (cursor + day) (today now)) eqn:Hafter.
    + inversion H; subst. split; [exact Hk |].
      exists []. rewrite app_nil_r. split; [reflexivity |].
      apply extending_past. now apply isAfter_spec.
    + discriminate H.
  - destruct (isAfter (cursor + day) (today now)) eqn:Hafter.
    + inversion H; subst. split; [exact Hk |].
      exists []. rewrite app_nil_r. split; [reflexivity |].
      apply extending_past. now apply isAfter_spec.
    + assert (Hle : cursor + day <= today now).
      { destruct (Z_lt_le_dec (today now) (cursor + day)) as [Hlt | Hle]; [| exact Hle].
        apply isAfter_spec in Hlt. congruence. }
      unfold bindG at 1 in H. rewrite await_sendMessage in H.
      known_after H Hk Hk1.
      destruct (respond _ (store w)) as [[nxtResp | e] st1]; cbn [snd] in Hk1.
      2:{ inversion H; subst. split; [exact Hk1 |].
          exists []. rewrite app_nil_r. split; [reflexivity |].
          now apply extending_query_rejected. }
      unfold bindG at 1, note at 1 in H. cbn [fst snd] in H.
      destruct (nxtResp (getStatisticId prm_ isProduction false))
        as [[| p rest] |] eqn:Hpts.
      * apply IH in H; [| exact Hk1]. destruct H as (Hk' & t & -> & Ht).
        split; [exact Hk' |].
        exists (Extend (cursor + day) (Some []) :: t).
        rewrite <- app_assoc. split; [reflexivity |].
        apply extending_empty; auto.
      * unfold bindG at 1 in H. rewrite await_fetchLastSum in H.
        cbn [store sent] in H.
        pose proof (known_query (holeStart - day) holeStart
                      [getStatisticId prm_ isProduction false] st1 Hk1) as Hk2.
        destruct (respond (statistics_during_period (holeStart - day) holeStart
                             [getStatisticId prm_ isProduction false]) st1)
          as [[r1 | e1] st2] eqn:Hr1; cbn [snd] in Hk2.
        2:{ inversion H; subst. split; [exact Hk2 |].
            eexists. split; [reflexivity |].
            now apply extending_lookup_rejected. }
        unfold bindG at 1 in H. rewrite await_fetchLastSum in H.
        cbn [store sent] in H.
        pose proof (known_query (holeStart - day) holeStart
                      [getStatisticId prm_ isProduction true] st2 Hk2) as Hk3.
        destruct (respond (statistics_during_period (holeStart - day) holeStart
                             [getStatisticId prm_ isProduction true]) st2)
          as [[r2 | e2] st3] eqn:Hr2; cbn [snd] in Hk3.
        2:{ inversion H; subst. split; [exact Hk3 |].
            eexists. split; [reflexivity |].
            now apply extending_lookup_rejected. }
        unfold bindG at 1, yield, bindG at 1, note, await, retG in H.
        cbn [fst snd] in H.
        match type of H with
        | context [body ?h ?w0] =>
            pose proof (known_body h w0 Hk3) as Hk4;
            destruct (body h w0) as [[[] | e3] w3] eqn:Hb
        end; cbn [snd] in Hk4.
        -- inversion H; subst. split; [exact Hk4 |].
           eexists. rewrite <- app_assoc. split; [reflexivity |].
           apply (extending_close respond now prm_ isProduction known holeStart cursor
                    p rest _ true); auto.
           exists st1, st2, st3, r1, r2. cbn [from lastSum lastCost]. auto.
        -- inversion H; subst. split; [exact Hk4 |].
           eexists. rewrite <- app_assoc. split; [reflexivity |].
           apply (extending_close respond now prm_ isProduction known holeStart cursor
                    p rest _ false); auto.
           exists st1, st2, st3, r1, r2. cbn [from lastSum lastCost]. auto.
      * apply IH in H; [| exact Hk1]. destruct H as (Hk' & t & -> & Ht).
        split; [exact Hk' |].
        exists (Extend (cursor + day) None :: t).
        rewrite <- app_assoc. split; [reflexivity |].
        apply extending_empty; auto.
Qed.

(** The inner loop hands back a cursor at least one day further, and no
    more than one day past [today]. *)
Lemma extending_advances holeStart cursor t r :
  extending respond now prm_ isProduction known holeStart cursor t r ->
  forall cursor', r = Some cursor' ->
    cursor + day <= cursor' /\ (cursor <= today now -> cursor' <= today now + day).
Proof.
  pose proof day_pos as Hd.
  induction 1 as [c Hc | c Hc | c pts t r Hc Hp Hext IH | c pts Hc Hp
                 | c p rest h resumed Hc Hf Ht Hn Hb];
    intros cursor' Hr.
  - inversion Hr; subst. lia.
  - discriminate.
  - destruct (IH _ Hr). lia.
  - discriminate.
  - destruct resumed; [| discriminate]. inversion Hr; subst. lia.
Qed.

Lemma daysLeft_enough (cursor : Timestamp) :
  cursor <= today now -> today now - cursor < Z.of_nat (daysLeft now cursor) * day.
Proof.
  intros Hc. pose proof day_pos as Hd. unfold daysLeft.
  pose proof (Z.div_pos (today now - cursor) day ltac:(lia) Hd) as Hq.
  rewrite Z2Nat.id by lia.
  pose proof (Z.div_mod (today now - cursor) day ltac:(lia)) as Hdm.
  pose proof (Z.mod_pos_bound (today now - cursor) day Hd) as Hm.
  lia.
Qed.

(** With fuel for the days left, the inner loop does not run out. *)
Lemma extendHole_fuel (fuel : nat) :
  forall holeStart cursor s,
    today now - cursor < Z.of_nat fuel * day ->
    exists o s',
      extendHole respond now body prm_ isProduction fuel holeStart cursor s = (Some o, s').
Proof.
  pose proof day_pos as Hd.
  induction fuel as [| fuel IH]; intros holeStart cursor [evs w] Hfuel;
    cbn [extendHole]; rewrite addDays_1.
  - destruct (isAfter (cursor + day) (today now)) eqn:Hafter.
    + eexists _, _. reflexivity.
    + exfalso. assert (today now < cursor + day) as Hlt by lia.
      apply isAfter_spec in Hlt. congruence.
  - destruct (isAfter (cursor + day) (today now)) eqn:Hafter.
    + eexists _, _. reflexivity.
    + assert (Hle : cursor + day <= today now).
      { destruct (Z_lt_le_dec (today now) (cursor + day)) as [Hlt | Hle]; [| exact Hle].
        apply isAfter_spec in Hlt. congruence. }
      assert (Hrec : today now - (cursor + day) < Z.of_nat fuel * day) by lia.
      unfold bindG at 1. rewrite await_sendMessage.
      destruct (respond _ (store w)) as [[nxtResp | e] st1];
        [| eexists _, _; reflexivity].
      unfold bindG at 1, note at 1. cbn [fst snd].
      destruct (nxtResp (getStatisticId prm_ isProduction false)) as [[| p rest] |].
      * apply IH, Hrec.
      * unfold bindG at 1. rewrite await_fetchLastSum. cbn [store sent].
        destruct (respond _ st1) as [[r1 | e1] st2]; [| eexists _, _; reflexivity].
        unfold bindG at 1. rewrite await_fetchLastSum. cbn [store sent].
        destruct (respond _ st2) as [[r2 | e2] st3]; [| eexists _, _; reflexivity].
        unfold bindG at 1, yield, bindG at 1, note, await, retG. cbn [fst snd].
        match goal with
        | |- context [body ?h ?w0] => destruct (body h w0) as [[[] | e3] w3]
        end; eexists _, _; reflexivity.
      * apply IH, Hrec.
Qed.

(** With fuel for the days left, the outer loop does not run out. *)
Lemma scan_fuel (fuel : nat) :
  forall cursor evs w,
    known (store w) ->
    today now - cursor <= Z.of_nat fuel * day ->
    exists o s', scan respond now body prm_ isProduction fuel cursor (evs, w) = (Some o, s').
Proof.
  pose proof day_pos as Hd.
  induction fuel as [| fuel IH]; intros cursor evs w Hk Hfuel; cbn [scan].
  - destruct (isBefore cursor (today now)) eqn:Hbefore.
    + apply isBefore_spec in Hbefore. lia.
    + eexists _, _. reflexivity.
  - destruct (isBefore cursor (today now)) eqn:Hbefore;
      [| eexists _, _; reflexivity].
    apply isBefore_spec in Hbefore.
    unfold bindG at 1. rewrite await_sendMessage.
    known_next Hk Hk1.
    destruct (respond _ (store w)) as [[resp | e] st1]; cbn [snd] in Hk1;
      [| eexists _, _; reflexivity].
    unfold bindG at 1, note at 1. cbn [fst snd].
    destruct (hasPoints (resp (getStatisticId prm_ isProduction false))).
    + apply IH; [exact Hk1 |]. rewrite addDays_1. lia.
    + unfold bindG at 1.
      match goal with
      | |- context [extendHole _ _ _ _ _ ?f ?hs ?c ?s0] =>
          destruct (extendHole_fuel f hs c s0) as (o1 & [evs1 w1] & Hext);
            [apply daysLeft_enough; lia |]
      end.
      rewrite Hext. destruct o1 as [cursor' | e1]; [| eexists _, _; reflexivity].
      apply extendHole_extending in Hext; [| exact Hk1].
      destruct Hext as (Hk' & t & _ & Ht).
      apply IH; [exact Hk' |].
      destruct (extending_advances _ _ _ _ Ht cursor' eq_refl) as [Hadv _]. lia.
Qed.

(** [scan] only adds to the history, and what it adds is a history of the
    outer loop. *)
Lemma scan_scanning (fuel : nat) :
  forall cursor evs w o evs' w',
    known (store w) ->
    scan respond now body prm_ isProduction fuel cursor (evs, w) = (Some o, (evs', w')) ->
    exists t, evs' = evs ++ t
              /\ scanning respond now prm_ isProduction known cursor t (isResolved o).
Proof.
  induction fuel as [| fuel IH]; intros cursor evs w o evs' w' Hk H; cbn [scan] in H.
  - destruct (isBefore cursor (today now)) eqn:Hbefore; [discriminate |].
    inversion H; subst. exists []. rewrite app_nil_r. split; [reflexivity |].
    apply scanning_done.
    destruct (Z_lt_le_dec cursor (today now)) as [Hlt | Hle]; [| exact Hle].
    apply isBefore_spec in Hlt. congruence.
  - destruct (isBefore cursor (today now)) eqn:Hbefore.
    2:{ inversion H; subst. exists []. rewrite app_nil_r. split; [reflexivity |].
        apply scanning_done.
        destruct (Z_lt_le_dec cursor (today now)) as [Hlt | Hle]; [| exact Hle].
        apply isBefore_spec in Hlt. congruence. }
    apply isBefore_spec in Hbefore.
    unfold bindG at 1 in H. rewrite await_sendMessage in H.
    known_after H Hk Hk1.
    destruct (respond _ (store w)) as [[resp | e] st1]; cbn [snd] in Hk1.
    2:{ inversion H; subst. exists []. rewrite app_nil_r. split; [reflexivity |].
        now apply scanning_query_rejected. }
    unfold bindG at 1, note at 1 in H. cbn [fst snd] in H.
    destruct (hasPoints (resp (getStatisticId prm_ isProduction false))) eqn:Hpts.
    + rewrite addDays_1 in H. apply IH in H; [| exact Hk1]. destruct H as (t & -> & Ht).
      eexists. rewrite <- app_assoc. split; [reflexivity |].
      now apply scanning_data.
    + unfold bindG at 1 in H.
      match type of H with
      | context [extendHole _ _ _ _ _ ?f ?hs ?c ?s0] =>
          destruct (extendHole respond now body prm_ isProduction f hs c s0)
            as [[[cursor' | e1] |] [evs1 w1]] eqn:Hext
      end.
      * apply extendHole_extending in Hext; [| exact Hk1].
        destruct Hext as (Hk' & t1 & -> & Ht1).
        apply IH in H; [| exact Hk']. destruct H as (t2 & -> & Ht2).
        exists (Examine cursor (resp (getStatisticId prm_ isProduction false))
                  :: t1 ++ t2).
        split; [now rewrite <- !app_assoc |].
        eapply scanning_hole; eauto.
      * apply extendHole_extending in Hext; [| exact Hk1].
        destruct Hext as (Hk' & t1 & -> & Ht1).
        inversion H; subst.
        exists (Examine cursor (resp (getStatisticId prm_ isProduction false)) :: t1).
        split; [now rewrite <- !app_assoc |].
        now apply scanning_hole_rejected.
      * discriminate.
Qed.

(** *** The cursor along a history *)

Lemma extending_cursors holeStart cursor t r :
  extending respond now prm_ isProduction known holeStart cursor t r ->
  examined t = []
  /\ cursors t = extended t
  /\ StronglySorted (fun a b => a + day <= b) (extended t)
  /\ Forall (fun x => cursor + day <= x <= today now) (extended t)
  /\ (forall cursor', r = Some cursor' -> Forall (fun x => x <= cursor') (extended t)).
Proof.
  pose proof day_pos as Hd.
  induction 1 as [c Hc | c Hc | c pts t r Hc Hp Hext IH | c pts Hc Hp
                 | c p rest h resumed Hc Hf Ht Hn Hb].
  - cbn. repeat split; intros; constructor.
  - cbn. repeat split; intros; constructor.
  - destruct IH as (He & Hcur & Hs & Hb & Hr).
    unfold examined, cursors, extended in *. cbn [flat_map app].
    repeat split.
    + exact He.
    + now rewrite Hcur.
    + constructor; [exact Hs |].
      eapply Forall_impl; [| exact Hb]. cbn. intros; lia.
    + constructor; [lia |].
      eapply Forall_impl; [| exact Hb]. cbn. intros; lia.
    + intros cursor' Hc'. constructor.
      * destruct (extending_advances _ _ _ _ Hext cursor' Hc'). lia.
      * now apply Hr.
  - cbn. split; [reflexivity |]. split; [reflexivity |].
    split; [repeat constructor |]. split; [repeat constructor; lia |].
    discriminate.
  - cbn. split; [reflexivity |]. split; [reflexivity |].
    split; [repeat constructor |]. split; [repeat constructor; lia |].
    intros c' Hc'. destruct resumed; [| discriminate].
    inversion Hc'; subst. repeat constructor; lia.
Qed.

Lemma scanning_cursors cursor t finished :
  scanning respond now prm_ isProduction known cursor t finished ->
  StronglySorted Z.le (cursors t)
  /\ Forall (fun x => cursor <= x) (cursors t)
  /\ StronglySorted (fun a b => a + day <= b) (examined t)
  /\ Forall (fun x => cursor <= x < today now) (examined t)
  /\ StronglySorted (fun a b => a + day <= b) (extended t)
  /\ Forall (fun x => cursor + day <= x <= today now) (extended t).
Proof.
  pose proof day_pos as Hd.
  induction 1 as [c Hc | c Hc | c pts t fin Hc Hp Hscan IH
                 | c pts t1 c' t2 fin Hc Hp Hext Hscan IH | c pts t1 Hc Hp Hext].
  - cbn. repeat split; constructor.
  - cbn. repeat split; constructor.
  - destruct IH as (Hs & Hb & Hxs & Hxb & Hes & Heb).
    unfold examined, cursors, extended in *. cbn [flat_map app].
    repeat split.
    + constructor; [exact Hs |]. eapply Forall_impl; [| exact Hb]. cbn. intros; lia.
    + constructor; [lia |]. eapply Forall_impl; [| exact Hb]. cbn. intros; lia.
    + constructor; [exact Hxs |]. eapply Forall_impl; [| exact Hxb]. cbn. intros; lia.
    + constructor; [lia |]. eapply Forall_impl; [| exact Hxb]. cbn. intros; lia.
    + exact Hes.
    + eapply Forall_impl; [| exact Heb]. cbn. intros; lia.
  - destruct IH as (Hs & Hb & Hxs & Hxb & Hes & Heb).
    destruct (extending_cursors _ _ _ _ Hext) as (He1 & Hcur1 & Hs1 & Hb1 & Hr1).
    destruct (extending_advances _ _ _ _ Hext c' eq_refl) as [Hadv _].
    specialize (Hr1 c' eq_refl).
    rewrite Forall_forall in Hb, Hxb, Heb, Hb1, Hr1.
    unfold examined, cursors, extended in *. cbn [flat_map app].
    rewrite !flat_map_app, He1, Hcur1. cbn [app].
    repeat split.
    + constructor.
      * apply StronglySorted_append; [| exact Hs |].
        -- clear - Hs1 Hd. induction Hs1 as [| a l Hl IHl Ha]; constructor; auto.
           eapply Forall_impl; [| exact Ha]. cbn. intros; lia.
        -- intros x y Hx Hy. specialize (Hr1 x Hx). specialize (Hb y Hy). lia.
      * apply Forall_app. split; apply Forall_forall; intros x Hx.
        -- specialize (Hb1 x Hx). lia.
        -- specialize (Hb x Hx). lia.
    + constructor; [lia |].
      apply Forall_app. split; apply Forall_forall; intros x Hx.
      * specialize (Hb1 x Hx). lia.
      * specialize (Hb x Hx). lia.
    + constructor; [exact Hxs |].
      apply Forall_forall. intros x Hx. specialize (Hxb x Hx). lia.
    + constructor; [lia |].
      apply Forall_forall. intros x Hx. specialize (Hxb x Hx). lia.
    + apply StronglySorted_append; [exact Hs1 | exact Hes |].
      intros x y Hx Hy. specialize (Hr1 x Hx). specialize (Heb y Hy). lia.
    + apply Forall_app. split; apply Forall_forall; intros x Hx.
      * specialize (Hb1 x Hx). lia.
      * specialize (Heb x Hx). lia.
  - destruct (extending_cursors _ _ _ _ Hext) as (He1 & Hcur1 & Hs1 & Hb1 & Hr1).
    rewrite Forall_forall in Hb1.
    unfold examined, cursors, extended in *. cbn [flat_map app].
    rewrite He1, Hcur1.
    repeat split.
    + constructor.
      * clear - Hs1 Hd. induction Hs1 as [| a l Hl IHl Ha]; constructor; auto.
        eapply Forall_impl; [| exact Ha]. cbn. intros; lia.
      * apply Forall_forall. intros x Hx. specialize (Hb1 x Hx). lia.
    + constructor; [lia |].
      apply Forall_forall. intros x Hx. specialize (Hb1 x Hx). lia.
    + repeat constructor.
    + repeat constructor; lia.
    + exact Hs1.
    + apply Forall_forall. intros x Hx. specialize (Hb1 x Hx). lia.
Qed.

(** *** The holes along a history *)

(** What the inner loop yields: nothing, or one hole, last. *)
Lemma extending_yield holeStart cursor t r :
  extending respond now prm_ isProduction known holeStart cursor t r ->
  forall pre hole post, t = pre ++ Yield hole :: post ->
    post = []
    /\ (exists pre' p rest,
          pre = pre' ++ [Extend (to hole) (Some (p :: rest))] /\ next hole = start p)
    /\ from hole = holeStart
    /\ cursor + day <= to hole <= today now
    /\ baselines respond prm_ isProduction known hole
    /\ (forall cursor', r = Some cursor' -> cursor' = to hole).
Proof.
  pose proof day_pos as Hd.
  induction 1 as [c Hc | c Hc | c pts t r Hc Hp Hext IH | c pts Hc Hp
                 | c p rest h resumed Hc Hf Ht Hn Hb];
    intros pre hole post Heq.
  - now destruct pre.
  - now destruct pre.
  - destruct pre as [| e pre]; [discriminate |].
    cbn [app] in Heq. inversion Heq; subst e t.
    destruct (IH _ _ _ eq_refl)
      as (Hpost & (pre' & p & rest & -> & Hnext) & Hfrom & Hto & Hb & Hr).
    repeat split; auto; try lia.
    exists (Extend (c + day) pts :: pre'), p, rest. split; [reflexivity | exact Hnext].
  - destruct pre as [| e [| e' pre]]; discriminate.
  - destruct pre as [| e [| e' pre]]; try discriminate.
    + cbn [app] in Heq. inversion Heq; subst e hole post.
      repeat split; auto; try lia.
      * exists [], p, rest. rewrite Ht. split; [reflexivity | exact Hn].
      * intros c' Hc'. destruct resumed; [| discriminate]. inversion Hc'; subst. lia.
    + cbn [app] in Heq. inversion Heq as [[He He' Hnil]]. now destruct pre.
Qed.

Lemma extending_holes holeStart cursor t r :
  extending respond now prm_ isProduction known holeStart cursor t r ->
  holesOf t = []
  \/ exists hole,
       holesOf t = [hole]
       /\ from hole = holeStart
       /\ cursor + day <= to hole <= today now
       /\ baselines respond prm_ isProduction known hole
       /\ (forall cursor', r = Some cursor' -> cursor' = to hole).
Proof.
  pose proof day_pos as Hd.
  induction 1 as [c Hc | c Hc | c pts t r Hc Hp Hext IH | c pts Hc Hp
                 | c p rest h resumed Hc Hf Ht Hn Hb].
  - now left.
  - now left.
  - destruct IH as [IH | (hole & Hh & Hfrom & Hto & Hb & Hr)]; [now left | right].
    exists hole. repeat split; auto; lia.
  - now left.
  - right. exists h. repeat split; auto; try lia.
    intros c' Hc'. destruct resumed; [| discriminate]. inversion Hc'; subst. lia.
Qed.

Lemma scanning_holes cursor t finished :
  scanning respond now prm_ isProduction known cursor t finished ->
  StronglySorted (fun h1 h2 => to h1 <= from h2) (holesOf t)
  /\ Forall (fun hole => cursor <= from hole /\ from hole < to hole
                         /\ to hole <= today now
                         /\ baselines respond prm_ isProduction known hole) (holesOf t).
Proof.
  pose proof day_pos as Hd.
  induction 1 as [c Hc | c Hc | c pts t fin Hc Hp Hscan IH
                 | c pts t1 c' t2 fin Hc Hp Hext Hscan IH | c pts t1 Hc Hp Hext].
  - split; constructor.
  - split; constructor.
  - destruct IH as [Hs Hb]. split; [exact Hs |].
    change (holesOf (Examine c pts :: t)) with (holesOf t).
    eapply Forall_impl; [| exact Hb]. cbn. intros hole (? & ? & ? & ?).
    repeat split; auto; lia.
  - destruct IH as [Hs Hb].
    destruct (extending_advances _ _ _ _ Hext c' eq_refl) as [Hadv _].
    change (holesOf (Examine c pts :: t1 ++ t2)) with (holesOf (t1 ++ t2)).
    rewrite holesOf_app.
    assert (Hb' : Forall (fun hole => c <= from hole /\ from hole < to hole
                                      /\ to hole <= today now
                                      /\ baselines respond prm_ isProduction known hole)
                    (holesOf t2)).
    { eapply Forall_impl; [| exact Hb]. cbn. intros hole (? & ? & ? & ?).
      repeat split; auto; lia. }
    destruct (extending_holes _ _ _ _ Hext)
      as [-> | (hole & -> & Hfrom & Hto & Hbase & Hr)]; cbn [app].
    + split; assumption.
    + specialize (Hr c' eq_refl). split.
      * constructor; [exact Hs |].
        eapply Forall_impl; [| exact Hb]. cbn. intros h2 (? & _). lia.
      * constructor; [| exact Hb']. repeat split; auto; lia.
  - change (holesOf (Examine c pts :: t1)) with (holesOf t1).
    destruct (extending_holes _ _ _ _ Hext)
      as [-> | (hole & -> & Hfrom & Hto & Hbase & Hr)].
    + split; constructor.
    + split; repeat constructor; auto; lia.
Qed.

Lemma scanning_head cursor t finished :
  scanning respond now prm_ isProduction known cursor t finished ->
  (t = [] /\ (finished = true -> today now <= cursor))
  \/ exists points t', t = Examine cursor points :: t'.
Proof.
  destruct 1; try (right; eexists _, _; reflexivity).
  - left. split; auto.
  - left. split; [reflexivity | discriminate].
Qed.

(** Around each hole of a history: the inner loop's query of the closing
    day just before it, and the outer loop's query of the same day, or
    nothing, just after it. *)
Lemma scanning_yield cursor t finished :
  scanning respond now prm_ isProduction known cursor t finished ->
  forall pre hole post, t = pre ++ Yield hole :: post ->
    (exists pre' p rest,
       pre = pre' ++ [Extend (to hole) (Some (p :: rest))] /\ next hole = start p)
    /\ to hole <= today now
    /\ (post = [] \/ exists points post', post = Examine (to hole) points :: post')
    /\ (finished = true -> to hole < today now -> post <> []).
Proof.
  induction 1 as [c Hc | c Hc | c pts t fin Hc Hp Hscan IH
                 | c pts t1 c' t2 fin Hc Hp Hext Hscan IH | c pts t1 Hc Hp Hext];
    intros pre hole post Heq.
  - now destruct pre.
  - now destruct pre.
  - destruct pre as [| e pre]; [discriminate |].
    cbn [app] in Heq. inversion Heq; subst e t.
    destruct (IH _ _ _ eq_refl) as ((pre' & p & rest & -> & Hnext) & Hto & Hpost & Hfin).
    repeat split; auto.
    exists (Examine c pts :: pre'), p, rest. split; [reflexivity | exact Hnext].
  - destruct pre as [| e pre]; [discriminate |].
    cbn [app] in Heq. inversion Heq as [[He Heq']]. subst e.
    apply app_eq_app in Heq'. destruct Heq' as (l & [[Ht1 Hl] | [Hpre Ht2]]).
    + destruct l as [| e l]; cbn [app] in Hl.
      * (* the hole would open the later turns *)
        destruct (IH [] hole post (eq_sym Hl)) as ((pre' & p & rest & Hnil & _) & _).
        now destruct pre'.
      * (* the hole closes this turn *)
        inversion Hl; subst e post.
        destruct (extending_yield _ _ _ _ Hext _ _ _ Ht1)
          as (-> & (pre' & p & rest & -> & Hnext) & Hfrom & Hto & Hb & Hr).
        specialize (Hr c' eq_refl). subst c'. cbn [app].
        repeat split.
        -- exists (Examine c pts :: pre'), p, rest. split; [reflexivity | exact Hnext].
        -- lia.
        -- destruct (scanning_head _ _ _ Hscan) as [[-> _] | (points & t' & ->)];
             [now left | right; now exists points, t'].
        -- intros Hfin Hlt.
           destruct (scanning_head _ _ _ Hscan) as [[-> Hdone] | (points & t' & ->)];
             [specialize (Hdone Hfin); lia | discriminate].
    + (* the hole is one of the later turns *)
      subst pre.
      destruct (IH _ _ _ Ht2) as ((pre' & p & rest & -> & Hnext) & Hto & Hpost & Hfin).
      repeat split; auto.
      exists (Examine c pts :: t1 ++ pre'), p, rest.
      split; [cbn [app]; now rewrite app_assoc | exact Hnext].
  - destruct pre as [| e pre]; [discriminate |].
    cbn [app] in Heq. inversion Heq as [[He Heq']]. subst e.
    destruct (extending_yield _ _ _ _ Hext _ _ _ Heq')
      as (-> & (pre' & p & rest & -> & Hnext) & Hfrom & Hto & Hb & Hr).
    repeat split.
    + exists (Examine c pts :: pre'), p, rest. split; [reflexivity | exact Hnext].
    + lia.
    + now left.
    + discriminate.
Qed.

(** *** Whole scans *)

Lemma daysLeft_covers (cursor : Timestamp) :
  today now - cursor <= Z.of_nat (daysLeft now cursor) * day.
Proof.
  pose proof day_pos as Hd.
  destruct (Z_le_gt_dec cursor (today now)) as [Hle | Hgt].
  - pose proof (daysLeft_enough cursor Hle). lia.
  - pose proof (Nat2Z.is_nonneg (daysLeft now cursor)). nia.
Qed.

Lemma scan_runs (cursor : Timestamp) (w : World St) :
  known (store w) ->
  exists o evs w',
    scan respond now body prm_ isProduction (daysLeft now cursor) cursor ([], w)
      = (Some o, (evs, w'))
    /\ scanning respond now prm_ isProduction known cursor evs (isResolved o).
Proof.
  intros Hk.
  destruct (scan_fuel (daysLeft now cursor) cursor [] w Hk (daysLeft_covers cursor))
    as (o & [evs w'] & Hrun).
  exists o, evs, w'. split; [exact Hrun |].
  apply scan_scanning in Hrun; [| exact Hk]. destruct Hrun as (t & -> & Ht). exact Ht.
Qed.

(** Every run of the generator ends, resolved or rejected, and its
    history is a history of the outer loop. *)
Lemma missingDayRanges_runs (startDay : option Timestamp) (w : World St) :
  known (store w) ->
  exists o evs w' cursor,
    missingDayRanges respond now body prm_ isProduction startDay ([], w)
      = (Some o, (evs, w'))
    /\ scanning respond now prm_ isProduction known cursor evs (isResolved o).
Proof.
  intros Hk. pose proof day_pos as Hd.
  destruct startDay as [d |]; cbn [missingDayRanges].
  - destruct (scan_runs (startOfDay d) w Hk) as (o & evs & w' & Hrun & Hscan).
    now exists o, evs, w', (startOfDay d).
  - unfold bindG at 1, await. cbn [fst snd].
    pose proof (findOldestStatistic_known (getStatisticId prm_ isProduction false) w Hk)
      as Hk1.
    destruct (findOldestStatistic respond now _ w) as [[[p |] | e] w1]; cbn [snd] in Hk1.
    + destruct (scan_runs (startOfDay (addDays 1 (start p))) w1 Hk1)
        as (o & evs & w' & Hrun & Hscan).
      now exists o, evs, w', (startOfDay (addDays 1 (start p))).
    + exists (Resolved tt), [], w1, (today now). split; [reflexivity |].
      apply scanning_done. lia.
    + exists (Rejected e), [], w1, (today now - 1). split; [reflexivity |].
      apply scanning_query_rejected. lia.
Qed.

End ScannerProperties.

(** *** The claims on the scanner *)

Section ScannerClaims.

Variable body : Hole -> Client St unit.
Variable prm_ : string.
Variable isProduction : bool.

(** A run and its history, with nothing assumed of the store. *)
Lemma missingDayRanges_history (startDay : option Timestamp) (w : World St) :
  exists o evs w' cursor,
    missingDayRanges respond now body prm_ isProduction startDay ([], w)
      = (Some o, (evs, w'))
    /\ scanning respond now prm_ isProduction (fun _ => True) cursor evs (isResolved o).
Proof.
  apply (missingDayRanges_runs body prm_ isProduction (fun _ => True)); auto.
Qed.

(** C2. Whatever the store answers and whatever the consumer does, the
    holes of one scan come out in increasing time order and do not
    overlap: each hole ends no later than every later hole begins, and
    each hole begins before it ends. *)
Theorem holes_disjoint_increasing (startDay : option Timestamp) (w : World St) :
  let holes :=
    holesOf (history (missingDayRanges respond now body prm_ isProduction startDay ([], w)))
  in
  StronglySorted (fun h1 h2 => to h1 <= from h2) holes
  /\ Forall (fun hole => from hole < to hole) holes.
Proof.
  destruct (missingDayRanges_history startDay w) as (o & evs & w' & cursor & Hrun & Hscan).
  rewrite Hrun. unfold history. cbn [fst snd].
  destruct (scanning_holes _ _ _ _ _ _ Hscan) as [Hs Hb]. split; [exact Hs |].
  eapply Forall_impl; [| exact Hb]. cbn. intros hole (_ & Hlt & _). exact Hlt.
Qed.

(** C3, amended. Every hole of a scan has its baselines from two
    lookback queries over the day before [from], answered by the store
    one after the other: [lastSum] is the sum of the last point returned
    for the energy series, and [0] when there is none (or when that sum
    is zero or NaN), so it is never null; [lastCost] is the sum of the
    last point returned for the cost series, and null when there is
    none. The store answers them in a state of which everything holds
    that held when the scan began and that the queries and the consumer
    keep. *)
Theorem hole_baselines (known : St -> Prop) (startDay : option Timestamp) (w : World St) :
  (forall s e ids st,
     known st -> known (snd (respond (statistics_during_period s e ids) st))) ->
  (forall hole w0, known (store w0) -> known (store (snd (body hole w0)))) ->
  known (store w) ->
  Forall (baselines respond prm_ isProduction known)
    (holesOf (history (missingDayRanges respond now body prm_ isProduction startDay ([], w)))).
Proof.
  intros Hquery Hbody Hk.
  destruct (missingDayRanges_runs body prm_ isProduction known Hquery Hbody startDay w Hk)
    as (o & evs & w' & cursor & Hrun & Hscan).
  rewrite Hrun. unfold history. cbn [fst snd].
  destruct (scanning_holes _ _ _ _ _ _ Hscan) as [_ Hb].
  eapply Forall_impl; [| exact Hb]. cbn. intros hole (_ & _ & _ & Hbase). exact Hbase.
Qed.

(** C4, amended. The inner loop queries no day after [today] ([today]
    itself it may query); a hole is only yielded right after the inner
    loop found points in its closing day, which is [today] at the
    latest. A hole still open when the cursor passes [today] is not
    yielded. *)
Theorem hole_closed_by_today (startDay : option Timestamp) (w : World St) :
  let evs :=
    history (missingDayRanges respond now body prm_ isProduction startDay ([], w)) in
  Forall (fun cursor => cursor <= today now) (extended evs)
  /\ forall pre hole post,
       evs = pre ++ Yield hole :: post ->
       to hole <= today now
       /\ exists pre' p rest, pre = pre' ++ [Extend (to hole) (Some (p :: rest))].
Proof.
  destruct (missingDayRanges_history startDay w) as (o & evs & w' & cursor & Hrun & Hscan).
  rewrite Hrun. unfold history. cbn [fst snd]. split.
  - destruct (scanning_cursors _ _ _ _ _ _ Hscan) as (_ & _ & _ & _ & _ & Hb).
    eapply Forall_impl; [| exact Hb]. cbn. intros; lia.
  - intros pre hole post Heq.
    destruct (scanning_yield _ _ _ _ _ _ Hscan _ _ _ Heq)
      as ((pre' & p & rest & Hpre & _) & Hto & _).
    split; [exact Hto |]. now exists pre', p, rest.
Qed.

(** C5, amended. When a hole closes, [to] is the closing day, the day in
    which the inner loop just found points, and [next] is the timestamp
    of the first of these points. The outer loop resumes with the cursor
    on the closing day itself: the next query of the scanner, if there is
    one, is the outer loop's query of the closing day, and there is one
    whenever the scan runs to its end and the closing day is before
    [today]. *)
Theorem hole_closing_day (startDay : option Timestamp) (w : World St) :
  let run := missingDayRanges respond now body prm_ isProduction startDay ([], w) in
  forall pre hole post,
    history run = pre ++ Yield hole :: post ->
    (exists pre' p rest,
       pre = pre' ++ [Extend (to hole) (Some (p :: rest))] /\ next hole = start p)
    /\ (post = [] \/ exists points post', post = Examine (to hole) points :: post')
    /\ (fst run = Some (Resolved tt) -> to hole < today now -> post <> []).
Proof.
  destruct (missingDayRanges_history startDay w) as (o & evs & w' & cursor & Hrun & Hscan).
  rewrite Hrun. unfold history. cbn [fst snd].
  intros pre hole post Heq.
  destruct (scanning_yield _ _ _ _ _ _ Hscan _ _ _ Heq) as (Hpre & _ & Hpost & Hfin).
  repeat split; auto.
  intros Ho. apply Hfin. now inversion Ho.
Qed.

(** C9. Whatever the store answers, a scan ends: the generator returns
    (or is rejected) within the fuel of its loops, so the holes it yields
    are finitely many. Along the scan the cursor never moves back; the
    days the outer loop examines are at least one day apart and all
    before [today]; the days the inner loop examines are at least one day
    apart and none is after [today]. *)
Theorem scan_terminates (startDay : option Timestamp) (w : World St) :
  exists o evs w',
    missingDayRanges respond now body prm_ isProduction startDay ([], w)
      = (Some o, (evs, w'))
    /\ StronglySorted Z.le (cursors evs)
    /\ StronglySorted (fun a b => a + day <= b) (examined evs)
    /\ StronglySorted (fun a b => a + day <= b) (extended evs)
    /\ Forall (fun cursor => cursor < today now) (examined evs)
    /\ Forall (fun cursor => cursor <= today now) (extended evs).
Proof.
  destruct (missingDayRanges_history startDay w) as (o & evs & w' & cursor & Hrun & Hscan).
  exists o, evs, w'. split; [exact Hrun |].
  destruct (scanning_cursors _ _ _ _ _ _ Hscan) as (Hs & _ & Hxs & Hxb & Hes & Heb).
  repeat split; auto.
  - eapply Forall_impl; [| exact Hxb]. cbn. intros; lia.
  - eapply Forall_impl; [| exact Heb]. cbn. intros; lia.
Qed.

(** C10. Without a start day, if the locator resolves with no point, the
    generator returns at once: it resolves, its history is empty (no day
    queried, no hole yielded), and the world is the one the locator
    left, so no message was sent after the locator's. *)
Theorem empty_series_no_holes (w w1 : World St) :
  findOldestStatistic respond now (getStatisticId prm_ isProduction false) w
    = (Resolved None, w1) ->
  missingDayRanges respond now body prm_ isProduction None ([], w)
    = (Some (Resolved tt), ([], w1)).
Proof.
  intros Hnone. cbn [missingDayRanges]. unfold bindG, await. cbn [fst snd].
  rewrite Hnone. reflexivity.
Qed.

End ScannerClaims.

(** *** The backfill driver *)

Section DriverProperties.

Context {CostConfig : Type}.
Variable formatAsStatistics : list LinkyDataPoint -> number -> list StatisticDataPoint.
Variable computeCosts :
  list StatisticDataPoint -> CostConfig -> number -> list StatisticDataPoint.
Variable config : MeterConfig CostConfig.
Variable rawData : list LinkyDataPoint.

(** What a run sent is what follows the log it started with. *)
Ltac issued_list :=
  cbn [fst snd store sent];
  match goal with
  | |- context [issued ?w ?w'] =>
      let l := fresh "l" in
      let H := fresh "H" in
      evar (l : list Message);
      assert (H : issued w w' = l);
      [ apply issued_app; cbn [sent]; rewrite <- ?app_assoc; cbn [app];
        subst l; first [ reflexivity | symmetry; apply app_nil_r ]
      | subst l; rewrite H; clear H ]
  end.

Ltac by_reply :=
  match goal with
  | |- context [respond ?m ?s] => destruct (respond m s) as [[? | ?] ?]
  end.

(** C1. The adjustments of the energy series that the driver sends for
    a hole: one, at [hole.next], of the sum of the last written point
    less [hole.lastSum], when points were written, that is when the hole
    has readings, the import resolved and it carried points; none
    otherwise. *)
Theorem energy_adjustment (hole : Hole) (w : World St) :
  let energyId := getStatisticId (prm config) (production config) false in
  let holeStats := formatAsStatistics (holeDataRaw rawData hole) (lastSum hole) in
  let written :=
    match holeDataRaw rawData hole with
    | [] => []
    | _ :: _ =>
        if isResolved (fst (saveStatistics respond (prm config) (meterName config)
                              (production config) false holeStats w))
        then holeStats else []
    end in
  filter (isAdjustOf energyId)
    (issued w (snd (fillHole respond formatAsStatistics computeCosts config rawData hole w)))
  = match written with
    | [] => []
    | p :: rest =>
        [adjust_sum_statistics energyId (next hole)
           (sum (last rest p) - lastSum hole)%float "Wh"]
    end.
Proof.
  intros energyId holeStats written. subst written holeStats. unfold fillHole.
  destruct (holeDataRaw rawData hole) as [| d ds].
  - unfold ret. issued_list. reflexivity.
  - generalize (formatAsStatistics (d :: ds) (lastSum hole)). intros holeStats.
    unfold bind, saveStatistics, adjustSum, bind, sendMessage, ret.
    by_reply; cbn [fst snd isResolved].
    2:{ issued_list. reflexivity. }
    destruct holeStats as [| p rest].
    + destruct (costs config) as [costs_ |], (lastCost hole) as [lastCost_ |];
        try (issued_list; reflexivity).
      destruct (truthy lastCost_); [| issued_list; reflexivity].
      destruct (computeCosts [] costs_ lastCost_) as [| c crest];
        [issued_list; reflexivity |].
      by_reply; [by_reply |]; issued_list; cbn [filter isAdjustOf];
        rewrite ?cost_id_not_energy_id; reflexivity.
    + by_reply.
      2:{ issued_list. cbn [filter isAdjustOf]. subst energyId.
          now rewrite String.eqb_refl. }
      destruct (costs config) as [costs_ |], (lastCost hole) as [lastCost_ |];
        try (issued_list; cbn [filter isAdjustOf]; subst energyId;
             now rewrite String.eqb_refl).
      destruct (truthy lastCost_);
        [| issued_list; cbn [filter isAdjustOf]; subst energyId;
           now rewrite String.eqb_refl].
      destruct (computeCosts (p :: rest) costs_ lastCost_) as [| c crest];
        [issued_list; cbn [filter isAdjustOf]; subst energyId;
         now rewrite String.eqb_refl |].
      by_reply; [by_reply |]; issued_list; cbn [filter isAdjustOf]; subst energyId;
        rewrite ?cost_id_not_energy_id, String.eqb_refl; reflexivity.
Qed.

(** C6. A hole without readings sends nothing, neither import nor
    adjustment: the loop body resolves with the world as it was, and so
    the generator resumes after the yield to look for the next hole. *)
Theorem no_readings_no_calls (hole : Hole) (evs : list Event) (w : World St) :
  holeDataRaw rawData hole = [] ->
  fillHole respond formatAsStatistics computeCosts config rawData hole w = (Resolved tt, w)
  /\ yield (fillHole respond formatAsStatistics computeCosts config rawData) hole (evs, w)
     = (Some (Resolved tt), (evs ++ [Yield hole], w)).
Proof.
  intros Hnone.
  assert (Hbody : fillHole respond formatAsStatistics computeCosts config rawData hole w
                  = (Resolved tt, w)).
  { unfold fillHole. rewrite Hnone. reflexivity. }
  split; [exact Hbody |].
  unfold yield, bindG, note, await. cbn [fst snd]. now rewrite Hbody.
Qed.

(** C7, amended. The writes to the cost series for a hole that has
    readings. With a null [hole.lastCost] there are none, and the run is
    the run of the same meter without a cost configuration. With a cost
    configuration, a [hole.lastCost] that is neither null, zero nor NaN
    and a cost computation that gives points, a run that is not rejected
    sends the import of these points and then one adjustment at
    [hole.next], of the sum of the last of them less [hole.lastCost]. *)
Theorem cost_writes (hole : Hole) (w : World St) :
  let costId := getStatisticId (prm config) (production config) true in
  let holeStats := formatAsStatistics (holeDataRaw rawData hole) (lastSum hole) in
  let run := fillHole respond formatAsStatistics computeCosts config rawData hole w in
  let costCalls :=
    filter (fun m => isImportOf costId m || isAdjustOf costId m) (issued w (snd run)) in
  match lastCost hole with
  | None =>
      costCalls = []
      /\ run = fillHole respond formatAsStatistics computeCosts (noCosts config)
                 rawData hole w
  | Some lastCost_ =>
      forall costs_ c rest,
        costs config = Some costs_ ->
        truthy lastCost_ = true ->
        holeDataRaw rawData hole <> [] ->
        computeCosts holeStats costs_ lastCost_ = c :: rest ->
        fst run = Resolved tt ->
        costCalls =
          [import_statistics
             (metadataOf (prm config) (meterName config) (production config) true)
             (c :: rest);
           adjust_sum_statistics costId (next hole)
             (sum (last rest c) - lastCost_)%float "€"]
  end.
Proof.
  intros costId holeStats run costCalls. subst costCalls run holeStats.
  unfold fillHole. cbn [noCosts prm meterName production costs].
  destruct (lastCost hole) as [lastCost_ |].
  - intros costs_ c rest Hcosts Htruthy Hdata Hcost Hrun.
    rewrite Hcosts, Htruthy in *.
    destruct (holeDataRaw rawData hole) as [| d ds]; [congruence |].
    revert Hcost Hrun.
    generalize (formatAsStatistics (d :: ds) (lastSum hole)). intros holeStats Hcost.
    rewrite Hcost.
    unfold bind, saveStatistics, adjustSum, bind, sendMessage, ret.
    by_reply; cbn [fst snd]; [| discriminate].
    destruct holeStats as [| p prest].
    + by_reply; cbn [fst snd]; [| discriminate].
      by_reply; cbn [fst snd]; [| discriminate].
      intros _. issued_list. cbn [filter isImportOf isAdjustOf statistic_id orb].
      subst costId. rewrite !energy_id_not_cost_id, !String.eqb_refl.
      cbn [orb]. reflexivity.
    + by_reply; cbn [fst snd]; [| discriminate].
      by_reply; cbn [fst snd]; [| discriminate].
      by_reply; cbn [fst snd]; [| discriminate].
      intros _. issued_list. cbn [filter isImportOf isAdjustOf statistic_id orb].
      subst costId. rewrite !energy_id_not_cost_id, !String.eqb_refl.
      cbn [orb]. reflexivity.
  - destruct (holeDataRaw rawData hole) as [| d ds].
    + split; [| reflexivity]. unfold ret. issued_list. reflexivity.
    + generalize (formatAsStatistics (d :: ds) (lastSum hole)). intros holeStats.
      split.
      * destruct (costs config) as [costs_ |];
          unfold bind, saveStatistics, adjustSum, bind, sendMessage, ret;
          (by_reply; cbn [fst snd];
           [destruct holeStats as [| p prest]; [| by_reply] |]);
          issued_list; cbn [filter isImportOf isAdjustOf statistic_id orb];
          subst costId; rewrite ?energy_id_not_cost_id; reflexivity.
      * now destruct (costs config).
Qed.

End DriverProperties.

End Properties.

(** * The theorems at sample inputs *)

(** C1 on the sample of the specification: a baseline of 100 and one written
    point of sum 180 give one adjustment of 80 at [hole.next]. *)
Lemma energy_adjustment_sample :
  filter (isAdjustOf Sample.energyId)
    (issued (Recorder.world Sample.gapDb)
       (snd (Sample.fill (Sample.hole 100%float None) (Recorder.world Sample.gapDb))))
  = [adjust_sum_statistics Sample.energyId (1998 * day) 80%float "Wh"].
Proof.
  exact (energy_adjustment Recorder.respond Sample.formatAsStatistics Sample.computeCosts
           Sample.config Sample.rawData (Sample.hole 100%float None)
           (Recorder.world Sample.gapDb)).
Defined.

(** C3 as stated fails: with no cost series in the store, the hole of day
    1997 comes with a null [lastCost] (and with the [lastSum] of day 1996). *)
Lemma null_cost_baseline :
  fst Sample.gapScan = Some (Resolved tt)
  /\ holesOf (history Sample.gapScan) = [Sample.hole 5%float None].
Proof. split; vm_compute; reflexivity. Qed.

(** C3, amended, on the same scan: the store is [Sample.gapDb] throughout. *)
Lemma hole_baselines_sample :
  Forall (baselines Recorder.respond Sample.meter false (fun db => db = Sample.gapDb))
    (holesOf (history Sample.gapScan)).
Proof.
  apply (hole_baselines Recorder.respond Sample.now (fun _ => ret tt) Sample.meter false
           (fun db => db = Sample.gapDb)).
  - intros s e ids st ->. reflexivity.
  - intros hole w0 H. exact H.
  - reflexivity.
Defined.

(** C4 as stated fails: with the cursor on [today] the inner loop still
    queries the day, and the hole it was extending is yielded, closed by
    [today]. *)
Lemma hole_closed_today :
  today Sample.now = 2000 * day
  /\ history Sample.todayScan
     = [Examine (1999 * day) None;
        Extend (2000 * day) (Some [Recorder.point 2000 5%float]);
        Yield {| from := 1999 * day;
                 to := 2000 * day;
                 lastSum := 0%float;
                 lastCost := None;
                 next := 2000 * day |}].
Proof. split; vm_compute; reflexivity. Qed.

(** C4, amended, on the same scan. *)
Lemma hole_closed_by_today_sample :
  to {| from := 1999 * day;
        to := 2000 * day;
        lastSum := 0%float;
        lastCost := None;
        next := 2000 * day |} <= today Sample.now
  /\ exists pre' p rest,
       [Examine (1999 * day) None; Extend (2000 * day) (Some [Recorder.point 2000 5%float])]
       = pre' ++ [Extend (to {| from := 1999 * day;
                                to := 2000 * day;
                                lastSum := 0%float;
                                lastCost := None;
                                next := 2000 * day |}) (Some (p :: rest))].
Proof.
  apply (proj2 (hole_closed_by_today Recorder.respond Sample.now (fun _ => ret tt)
                  Sample.meter false (Some (1999 * day)) (Recorder.world Sample.todayDb))
           _ _ []).
  vm_compute. reflexivity.
Defined.

(** C5 as stated fails: after the hole of day 1997 is yielded the outer loop
    has its cursor on the closing day, day 1998, and queries it again: the
    store is asked about day 1998 by the inner loop, before the hole, and by
    the outer loop, after it. *)
Lemma closing_day_examined_again :
  history Sample.gapScan
  = [Examine (1997 * day) None;
     Extend (1998 * day) (Some [Recorder.point 1998 9%float]);
     Yield (Sample.hole 5%float None);
     Examine (1998 * day) None;
     Extend (1999 * day) None;
     Extend (2000 * day) None]
  /\ sent (snd (snd Sample.gapScan))
     = [statistics_during_period (1997 * day) (1997 * day) [Sample.energyId];
        statistics_during_period (1998 * day) (1999 * day) [Sample.energyId];
        statistics_during_period (1996 * day) (1997 * day) [Sample.energyId];
        statistics_during_period (1996 * day) (1997 * day) [Sample.costId];
        statistics_during_period (1998 * day) (1998 * day) [Sample.energyId];
        statistics_during_period (1999 * day) (2000 * day) [Sample.energyId];
        statistics_during_period (2000 * day) (2001 * day) [Sample.energyId]].
Proof. split; vm_compute; reflexivity. Qed.

(** C5, amended, on the same scan. *)
Lemma hole_closing_day_sample :
  (exists pre' p rest,
     [Examine (1997 * day) None; Extend (1998 * day) (Some [Recorder.point 1998 9%float])]
     = pre' ++ [Extend (to (Sample.hole 5%float None)) (Some (p :: rest))]
     /\ next (Sample.hole 5%float None) = start p)
  /\ ([Examine (1998 * day) None; Extend (1999 * day) None; Extend (2000 * day) None] = []
      \/ exists points post',
           [Examine (1998 * day) None; Extend (1999 * day) None; Extend (2000 * day) None]
           = Examine (to (Sample.hole 5%float None)) points :: post')
  /\ (fst Sample.gapScan = Some (Resolved tt) ->
      to (Sample.hole 5%float None) < today Sample.now ->
      [Examine (1998 * day) None; Extend (1999 * day) None; Extend (2000 * day) None] <> []).
Proof.
  apply (hole_closing_day Recorder.respond Sample.now (fun _ => ret tt) Sample.meter false
           (Some (1997 * day)) (Recorder.world Sample.gapDb)).
  vm_compute. reflexivity.
Defined.

(** C6 at a hole without readings. *)
Lemma no_readings_no_calls_sample :
  Sample.fill Sample.laterHole (Recorder.world Sample.gapDb)
    = (Resolved tt, Recorder.world Sample.gapDb)
  /\ yield Sample.fill Sample.laterHole ([], Recorder.world Sample.gapDb)
     = (Some (Resolved tt), ([] ++ [Yield Sample.laterHole], Recorder.world Sample.gapDb)).
Proof.
  apply (no_readings_no_calls Recorder.respond Sample.formatAsStatistics Sample.computeCosts
           Sample.config Sample.rawData).
  vm_compute. reflexivity.
Defined.

(** C7 as stated fails: with a cost configuration and a cost baseline that
    is not null but zero, the driver writes the energy series and nothing of
    the cost series. *)
Lemma zero_cost_baseline_skips_costs :
  let hole := Sample.hole 100%float (Some 0%float) in
  let run := Sample.fill hole (Recorder.world Sample.gapDb) in
  costs Sample.config = Some 0.5%float
  /\ lastCost hole = Some 0%float
  /\ fst run = Resolved tt
  /\ issued (Recorder.world Sample.gapDb) (snd run)
     = [import_statistics (metadataOf Sample.meter "Linky" false false)
          [{| start := 1997 * day; state := 80%float; sum := 180%float |}];
        adjust_sum_statistics Sample.energyId (1998 * day) 80%float "Wh"].
Proof. repeat split; vm_compute; reflexivity. Qed.

(** C7, amended, with a cost baseline of 10 and a price of one half. *)
Lemma cost_writes_sample :
  filter (fun m => isImportOf Sample.costId m || isAdjustOf Sample.costId m)
    (issued (Recorder.world Sample.gapDb)
       (snd (Sample.fill (Sample.hole 100%float (Some 10%float))
               (Recorder.world Sample.gapDb))))
  = [import_statistics (metadataOf Sample.meter "Linky" false true)
       [{| start := 1997 * day; state := 40%float; sum := 50%float |}];
     adjust_sum_statistics Sample.costId (1998 * day) 40%float "€"].
Proof.
  apply (cost_writes Recorder.respond Sample.formatAsStatistics Sample.computeCosts
           Sample.config Sample.rawData (Sample.hole 100%float (Some 10%float))
           (Recorder.world Sample.gapDb) 0.5%float
           {| start := 1997 * day; state := 40%float; sum := 50%float |} []).
  - reflexivity.
  - vm_compute. reflexivity.
  - vm_compute. discriminate.
  - vm_compute. reflexivity.
  - vm_compute. reflexivity.
Defined.

(** C8 as stated fails: the only point of the series is more than 153
    weeks old, so that every seven-day window of the 153 weeks before today
    is empty, and the locator returns it. *)
Lemma point_beyond_153_weeks :
  (forall i, (i < 153)%nat ->
     Recorder.during Sample.oldDb Sample.energyId
       (today Sample.now - (Z.of_nat i + 1) * 7 * day)
       (today Sample.now - Z.of_nat i * 7 * day) = [])
  /\ start (Recorder.point 926 5%float) < today Sample.now - 153 * 7 * day
  /\ fst (findOldestStatistic Recorder.respond Sample.now Sample.energyId
            (Recorder.world Sample.oldDb))
     = Resolved (Some (Recorder.point 926 5%float)).
Proof.
  assert (Htoday : today Sample.now = 2000 * day) by (vm_compute; reflexivity).
  split; [| split; vm_compute; reflexivity].
  intros i Hi. rewrite Htoday. unfold Recorder.during, Sample.oldDb.
  cbn [filter map fst snd Recorder.point start].
  replace (2000 * day - (Z.of_nat i + 1) * 7 * day <=? 926 * day) with false.
  - now rewrite andb_false_r.
  - symmetry. apply Z.leb_gt. pose proof day_pos. nia.
Qed.

(** C8, amended, on the same store. *)
Lemma oldest_point_of_oldest_block_sample :
  let w := Recorder.world Sample.oldDb in
  let block j :=
    match fst (Recorder.respond (blockQuery Sample.now Sample.energyId j) (store w)) with
    | SuccessMessage r => r Sample.energyId
    | ErrorMessage _ => None
    end in
  let res := findOldestStatistic Recorder.respond Sample.now Sample.energyId w in
  fst res = Resolved (firstOfOldestBlock (map block (rev (seq 0 154))))
  /\ exists k, (k <= 154)%nat
               /\ issued w (snd res)
                  = map (blockQuery Sample.now Sample.energyId) (firstn k (rev (seq 0 154))).
Proof.
  apply (oldest_point_of_oldest_block Recorder.respond Sample.now Sample.energyId
           (Recorder.world Sample.oldDb)).
  - reflexivity.
  - intros j _. eexists. reflexivity.
Defined.

(** C10 on an empty store. *)
Lemma empty_series_no_holes_sample :
  logMissingRanges Recorder.respond Sample.now Sample.meter false None ([], Recorder.world [])
  = (Some (Resolved tt),
     ([], snd (findOldestStatistic Recorder.respond Sample.now Sample.energyId
                 (Recorder.world [])))).
Proof.
  apply (empty_series_no_holes Recorder.respond Sample.now (fun _ => ret tt) Sample.meter false).
  vm_compute. reflexivity.
Defined.

(** * More on the scanner *)

Lemma startOfDay_multiple (t : Timestamp) : startOfDay t = day * (t / day).
Proof.
  unfold startOfDay. pose proof (Z.div_mod t day ltac:(pose proof day_pos; lia)). lia.
Qed.

Lemma startOfDay_midnight (t : Timestamp) : startOfDay t mod day = 0.
Proof.
  rewrite startOfDay_multiple, Z.mul_comm. apply Z_mod_mult.
Qed.

Lemma startOfDay_mono (a b : Timestamp) : a <= b -> startOfDay a <= startOfDay b.
Proof.
  intros H. rewrite !startOfDay_multiple. pose proof day_pos as Hd.
  apply Z.mul_le_mono_nonneg_l; [lia |]. now apply Z.div_le_mono.
Qed.

Lemma startOfDay_of_midnight (t : Timestamp) : t mod day = 0 -> startOfDay t = t.
Proof. intros H. unfold startOfDay. lia. Qed.

Lemma midnight_multiple (t : Timestamp) : t mod day = 0 <-> exists q, t = day * q.
Proof. apply Zmod_divides. pose proof day_pos. lia. Qed.

Lemma next_midnight (t : Timestamp) : t mod day = 0 -> (t + day) mod day = 0.
Proof.
  intros H. apply midnight_multiple in H. destruct H as (q & ->).
  apply midnight_multiple. exists (q + 1). lia.
Qed.

Lemma midnights_apart (a b : Timestamp) :
  a mod day = 0 -> b mod day = 0 -> a < b -> a + day <= b.
Proof.
  intros Ha Hb Hlt. pose proof day_pos as Hd.
  apply midnight_multiple in Ha, Hb. destruct Ha as (qa & ->), Hb as (qb & ->).
  assert (qa < qb) by (apply (Z.mul_lt_mono_pos_l day); lia).
  replace (day * qa + day) with (day * (qa + 1)) by lia.
  apply Z.mul_le_mono_nonneg_l; lia.
Qed.

Lemma midnights_days (a b : Timestamp) :
  a mod day = 0 -> b mod day = 0 -> a <= b ->
  b - a = Z.of_nat (Z.to_nat ((b - a) / day)) * day.
Proof.
  intros Ha Hb Hle. pose proof day_pos as Hd.
  apply midnight_multiple in Ha, Hb. destruct Ha as (qa & ->), Hb as (qb & ->).
  assert (qa <= qb) by (apply (Z.mul_le_mono_pos_l _ _ day); lia).
  replace (day * qb - day * qa) with ((qb - qa) * day) by lia.
  rewrite Z_div_mult by lia. rewrite Z2Nat.id by lia. reflexivity.
Qed.

(** Days at least one day apart between two bounds: how many there can be. *)
Lemma spaced_length (l : list Timestamp) :
  forall lo hi,
    StronglySorted (fun a b => a + day <= b) l ->
    Forall (fun x => lo <= x <= hi) l ->
    l = [] \/ (Z.of_nat (List.length l) - 1) * day <= hi - lo.
Proof.
  pose proof day_pos as Hd.
  induction l as [| a l IH]; intros lo hi Hs Hb; [now left | right].
  inversion Hs as [| ? ? Hs' Ha]; subst. inversion Hb as [| ? ? Hab Hb']; subst.
  destruct (IH (a + day) hi Hs') as [-> | Hlen].
  - rewrite Forall_forall in *. intros x Hx. specialize (Ha x Hx). specialize (Hb' x Hx). lia.
  - cbn [List.length]. lia.
  - cbn [List.length]. lia.
Qed.

(** Holes of whole days, one after the other between two bounds: how many
    there can be. *)
Lemma holes_length (l : list Hole) :
  forall lo hi,
    StronglySorted (fun h1 h2 => to h1 <= from h2) l ->
    Forall (fun h => lo <= from h /\ from h + day <= to h /\ to h <= hi) l ->
    Z.of_nat (List.length l) * day <= Z.max 0 (hi - lo).
Proof.
  pose proof day_pos as Hd.
  induction l as [| a l IH]; intros lo hi Hs Hb; [cbn; lia |].
  inversion Hs as [| ? ? Hs' Ha]; subst. inversion Hb as [| ? ? Hab Hb']; subst.
  assert (Hrec : Z.of_nat (List.length l) * day <= Z.max 0 (hi - to a)).
  { apply IH; [exact Hs' |]. rewrite Forall_forall in *. intros x Hx.
    specialize (Ha x Hx). specialize (Hb' x Hx). lia. }
  cbn [List.length]. lia.
Qed.

Section ScannerMore.

Context {St : Type}.
Variable respond : Message -> St -> ResultMessage * St.
Variable now : Timestamp.
Variable body : Hole -> Client St unit.
Variable prm_ : string.
Variable isProduction : bool.

(** X1. A scan asked to start today or later does nothing: it resolves
    without a query and without a hole, the world untouched. *)
Theorem start_not_before_today (d : Timestamp) (w : World St) :
  today now <= d ->
  missingDayRanges respond now body prm_ isProduction (Some d) ([], w)
    = (Some (Resolved tt), ([], w)).
Proof.
  intros Hd. cbn [missingDayRanges].
  assert (Hc : today now <= startOfDay d).
  { unfold today in *. rewrite <- (startOfDay_of_midnight (startOfDay now)).
    - now apply startOfDay_mono.
    - apply startOfDay_midnight. }
  assert (Hguard : isBefore (startOfDay d) (today now) = false).
  { unfold isBefore. apply Z.ltb_ge. exact Hc. }
  destruct (daysLeft now (startOfDay d)); cbn [scan]; now rewrite Hguard.
Qed.

(** Every run has a history of the outer loop from a cursor at midnight. *)
Lemma missingDayRanges_anchored (startDay : option Timestamp) (w : World St) :
  exists o evs w' cursor,
    missingDayRanges respond now body prm_ isProduction startDay ([], w)
      = (Some o, (evs, w'))
    /\ scanning respond now prm_ isProduction (fun _ => True) cursor evs (isResolved o)
    /\ cursor mod day = 0.
Proof.
  pose proof day_pos as Hd.
  assert (Htoday : today now mod day = 0) by apply startOfDay_midnight.
  destruct startDay as [d |]; cbn [missingDayRanges].
  - destruct (scan_runs respond now body prm_ isProduction (fun _ => True)
                (fun _ _ _ _ _ => I) (fun _ _ _ => I) (startOfDay d) w I)
      as (o & evs & w' & Hrun & Hscan).
    exists o, evs, w', (startOfDay d). repeat split; auto. apply startOfDay_midnight.
  - unfold bindG at 1, await. cbn [fst snd].
    destruct (findOldestStatistic respond now _ w) as [[[p |] | e] w1].
    + destruct (scan_runs respond now body prm_ isProduction (fun _ => True)
                  (fun _ _ _ _ _ => I) (fun _ _ _ => I)
                  (startOfDay (addDays 1 (start p))) w1 I)
        as (o & evs & w' & Hrun & Hscan).
      exists o, evs, w', (startOfDay (addDays 1 (start p))). repeat split; auto.
      apply startOfDay_midnight.
    + exists (Resolved tt), [], w1, (today now). repeat split; auto.
      apply scanning_done. lia.
    + exists (Rejected e), [], w1, (today now - day). repeat split.
      * apply scanning_query_rejected. lia.
      * apply midnight_multiple in Htoday. destruct Htoday as (q & ->).
        apply midnight_multiple. exists (q - 1). lia.
Qed.

Lemma extending_midnights (known : St -> Prop) holeStart cursor t r :
  extending respond now prm_ isProduction known holeStart cursor t r ->
  holeStart mod day = 0 ->
  cursor mod day = 0 ->
  Forall (fun c => c mod day = 0) (cursors t)
  /\ Forall (fun hole => from hole mod day = 0 /\ to hole mod day = 0) (holesOf t)
  /\ (forall cursor', r = Some cursor' -> cursor' mod day = 0).
Proof.
  induction 1 as [c Hc | c Hc | c pts t r Hc Hp Hext IH | c pts Hc Hp
                 | c p rest h resumed Hc Hf Ht Hn Hb];
    intros Hhs Hcur; pose proof (next_midnight c Hcur) as Hnext.
  - repeat split; try constructor. intros c' Hc'. now inversion Hc'; subst.
  - repeat split; try constructor. discriminate.
  - destruct (IH Hhs Hnext) as (H1 & H2 & H3).
    unfold cursors, holesOf in *. cbn [flat_map app]. repeat split; auto.
  - unfold cursors, holesOf. cbn [flat_map app]. repeat split; repeat constructor; auto.
    discriminate.
  - unfold cursors, holesOf. cbn [flat_map app].
    split; [repeat constructor; auto |]. split.
    + repeat constructor; congruence.
    + intros c' Hc'. destruct resumed; [| discriminate]. now inversion Hc'; subst.
Qed.

Lemma scanning_midnights (known : St -> Prop) cursor t finished :
  scanning respond now prm_ isProduction known cursor t finished ->
  cursor mod day = 0 ->
  Forall (fun c => c mod day = 0) (cursors t)
  /\ Forall (fun hole => from hole mod day = 0 /\ to hole mod day = 0) (holesOf t).
Proof.
  induction 1 as [c Hc | c Hc | c pts t fin Hc Hp Hscan IH
                 | c pts t1 c' t2 fin Hc Hp Hext Hscan IH | c pts t1 Hc Hp Hext];
    intros Hcur.
  - split; constructor.
  - split; constructor.
  - destruct (IH (next_midnight c Hcur)) as [H1 H2].
    unfold cursors, holesOf in *. cbn [flat_map app]. split; auto.
  - destruct (extending_midnights _ _ _ _ _ Hext Hcur Hcur) as (H1 & H2 & H3).
    destruct (IH (H3 c' eq_refl)) as [H4 H5].
    unfold cursors, holesOf in *. cbn [flat_map app]. rewrite !flat_map_app.
    split; [constructor; [exact Hcur |] |]; apply Forall_app; auto.
  - destruct (extending_midnights _ _ _ _ _ Hext Hcur Hcur) as (H1 & H2 & H3).
    unfold cursors, holesOf in *. cbn [flat_map app]. split; auto.
Qed.


Lemma daysFrom_S (cursor : Timestamp) (n : nat) :
  daysFrom cursor (S n) = cursor :: daysFrom (cursor + day) n.
Proof.
  unfold daysFrom. cbn [seq map]. f_equal; [lia |].
  rewrite <- seq_shift, map_map. apply map_ext. intros k. lia.
Qed.

(** The inner loop's queries before a hole is yielded: the days after the
    cursor, one by one and all empty, up to the closing day. *)
Lemma extending_empty_days (known : St -> Prop) holeStart cursor t r :
  extending respond now prm_ isProduction known holeStart cursor t r ->
  forall pre hole post, t = pre ++ Yield hole :: post ->
    exists mid p rest,
      pre = mid ++ [Extend (to hole) (Some (p :: rest))]
      /\ forallb foundEmpty mid = true
      /\ extended mid = daysFrom (cursor + day) (List.length mid)
      /\ to hole = cursor + (Z.of_nat (List.length mid) + 1) * day.
Proof.
  induction 1 as [c Hc | c Hc | c pts t r Hc Hp Hext IH | c pts Hc Hp
                 | c p rest h resumed Hc Hf Ht Hn Hb];
    intros pre hole post Heq.
  - now destruct pre.
  - now destruct pre.
  - destruct pre as [| e pre]; [discriminate |].
    cbn [app] in Heq. inversion Heq; subst e t.
    destruct (IH _ _ _ eq_refl) as (mid & p & rest & -> & Hempty & Hdays & Hto).
    exists (Extend (c + day) pts :: mid), p, rest.
    cbn [app forallb foundEmpty List.length]. rewrite Hp, Hempty, daysFrom_S.
    unfold extended in *. cbn [flat_map app]. rewrite Hdays.
    repeat split; auto. lia.
  - destruct pre as [| e [| e' pre]]; discriminate.
  - destruct pre as [| e [| e' pre]]; try discriminate.
    + cbn [app] in Heq. inversion Heq; subst e hole post.
      exists [], p, rest. rewrite Ht. cbn. repeat split; auto; lia.
    + cbn [app] in Heq. inversion Heq as [[He He' Hnil]]. now destruct pre.
Qed.

(** X3. The days of a hole are the days the scanner found empty: just
    before a hole is yielded the history holds the outer loop's query of
    [from], which found no point, then the inner loop's queries of the
    days after it, one by one and each without a point, and last its query
    of [to], the first day found with points. *)
Theorem hole_days_found_empty (startDay : option Timestamp) (w : World St) :
  let evs :=
    history (missingDayRanges respond now body prm_ isProduction startDay ([], w)) in
  forall pre hole post,
    evs = pre ++ Yield hole :: post ->
    exists pre0 points mid p rest,
      pre = pre0 ++ Examine (from hole) points :: mid
                 ++ [Extend (to hole) (Some (p :: rest))]
      /\ hasPoints points = false
      /\ forallb foundEmpty mid = true
      /\ extended mid = daysFrom (from hole + day) (List.length mid)
      /\ to hole = from hole + (Z.of_nat (List.length mid) + 1) * day.
Proof.
  destruct (missingDayRanges_anchored startDay w)
    as (o & evs & w' & cursor & Hrun & Hscan & _).
  rewrite Hrun. unfold history. cbn [fst snd]. clear Hrun.
  induction Hscan as [c Hc | c Hc | c pts t fin Hc Hp Hscan IH
                     | c pts t1 c' t2 fin Hc Hp Hext Hscan IH | c pts t1 Hc Hp Hext];
    intros pre hole post Heq.
  - now destruct pre.
  - now destruct pre.
  - destruct pre as [| e pre]; [discriminate |].
    cbn [app] in Heq. inversion Heq; subst e t.
    destruct (IH _ _ _ eq_refl) as (pre0 & pts0 & mid & p & rest & -> & Hrest).
    now exists (Examine c pts :: pre0), pts0, mid, p, rest.
  - destruct pre as [| e pre]; [discriminate |].
    cbn [app] in Heq. inversion Heq as [[He Heq']]. subst e.
    apply app_eq_app in Heq'. destruct Heq' as (l & [[Ht1 Hl] | [Hpre Ht2]]).
    + destruct l as [| e l]; cbn [app] in Hl.
      * destruct (IH [] hole post (eq_sym Hl)) as (pre0 & pts0 & mid & p & rest & Hnil & _).
        now destruct pre0.
      * inversion Hl; subst e post.
        destruct (extending_yield _ _ _ _ _ _ _ _ _ Hext _ _ _ Ht1)
          as (_ & _ & Hfrom & _).
        destruct (extending_empty_days _ _ _ _ _ Hext _ _ _ Ht1)
          as (mid & p & rest & -> & Hempty & Hdays & Hto).
        exists [], pts, mid, p, rest. rewrite Hfrom. now repeat split.
    + subst pre.
      destruct (IH _ _ _ Ht2) as (pre0 & pts0 & mid & p & rest & -> & Hrest).
      exists (Examine c pts :: t1 ++ pre0), pts0, mid, p, rest.
      split; [cbn [app]; now rewrite <- app_assoc | exact Hrest].
  - destruct pre as [| e pre]; [discriminate |].
    cbn [app] in Heq. inversion Heq as [[He Heq']]. subst e.
    destruct (extending_yield _ _ _ _ _ _ _ _ _ Hext _ _ _ Heq')
      as (_ & _ & Hfrom & _).
    destruct (extending_empty_days _ _ _ _ _ Hext _ _ _ Heq')
      as (mid & p & rest & -> & Hempty & Hdays & Hto).
    exists [], pts, mid, p, rest. rewrite Hfrom. now repeat split.
Qed.

(** A scan from an explicit start day, and its history from that day. *)
Lemma scan_from_start_day (d : Timestamp) (w : World St) :
  exists o evs w',
    missingDayRanges respond now body prm_ isProduction (Some d) ([], w)
      = (Some o, (evs, w'))
    /\ scanning respond now prm_ isProduction (fun _ => True) (startOfDay d) evs
         (isResolved o).
Proof.
  cbn [missingDayRanges].
  apply (scan_runs respond now body prm_ isProduction (fun _ => True)
           (fun _ _ _ _ _ => I) (fun _ _ _ => I) (startOfDay d) w I).
Qed.

(** X4. A scan from a start day makes no more queries than there are days
    up to today: with [n] the number of days from the start day to today,
    the outer loop examines at most [n] days, the inner loop at most [n],
    and at most [n] holes are yielded. *)
Theorem scan_bounded_by_days (d : Timestamp) (w : World St) :
  let evs :=
    history (missingDayRanges respond now body prm_ isProduction (Some d) ([], w)) in
  let n := Z.to_nat ((today now - startOfDay d) / day) in
  (List.length (examined evs) <= n)%nat
  /\ (List.length (extended evs) <= n)%nat
  /\ (List.length (holesOf evs) <= n)%nat.
Proof.
  pose proof day_pos as Hd.
  destruct (scan_from_start_day d w) as (o & evs & w' & Hrun & Hscan).
  rewrite Hrun. unfold history. cbn [fst snd].
  pose proof (startOfDay_midnight d) as Hmid.
  assert (Htoday : today now mod day = 0) by apply startOfDay_midnight.
  destruct (scanning_midnights _ _ _ _ Hscan Hmid) as [Hc Hh].
  destruct (scanning_cursors _ _ _ _ _ _ _ _ Hscan) as (_ & _ & Hxs & Hxb & Hes & Heb).
  destruct (scanning_holes _ _ _ _ _ _ _ _ Hscan) as [Hhs Hhb].
  destruct (Z_le_gt_dec (startOfDay d) (today now)) as [Hle | Hgt].
  - pose proof (midnights_days _ _ Hmid Htoday Hle) as Hn.
    set (n := Z.to_nat ((today now - startOfDay d) / day)) in *.
    assert (Hholes : Z.of_nat (List.length (holesOf evs)) * day
                     <= Z.max 0 (today now - startOfDay d)).
    { apply holes_length; [exact Hhs |].
      rewrite Forall_forall in *. intros h Hin.
      destruct (Hhb h Hin) as (H1 & H2 & H3 & _). destruct (Hh h Hin) as [H4 H5].
      repeat split; auto. now apply midnights_apart. }
    assert (Hexamined : examined evs = []
                        \/ (Z.of_nat (List.length (examined evs)) - 1) * day
                           <= today now - day - startOfDay d).
    { apply spaced_length; [exact Hxs |].
      rewrite Forall_forall in *. intros x Hx. destruct (Hxb x Hx) as [H1 H2].
      split; [exact H1 |].
      assert (x mod day = 0).
      { apply Hc. unfold examined, cursors in *. apply in_flat_map in Hx.
        destruct Hx as (e & He & Hx). apply in_flat_map. exists e. split; [exact He |].
        destruct e; auto; contradiction. }
      pose proof (midnights_apart _ _ H Htoday H2). lia. }
    assert (Hextended : extended evs = []
                        \/ (Z.of_nat (List.length (extended evs)) - 1) * day
                           <= today now - (startOfDay d + day)).
    { apply spaced_length; [exact Hes |].
      eapply Forall_impl; [| exact Heb]. cbn. intros; lia. }
    repeat split.
    + destruct Hexamined as [-> | He]; [cbn; lia | nia].
    + destruct Hextended as [-> | He]; [cbn; lia | nia].
    + nia.
  - destruct (scanning_head _ _ _ _ _ _ _ _ Hscan) as [[-> _] | (points & t' & ->)].
    + cbn. lia.
    + inversion Hscan; lia.
Qed.

(** The outer loop over days that all have points. *)
Lemma scan_days_with_points (k : nat) :
  (forall c st, exists r st',
      respond (statistics_during_period c c [getStatisticId prm_ isProduction false]) st
        = (SuccessMessage r, st')
      /\ hasPoints (r (getStatisticId prm_ isProduction false)) = true) ->
  forall fuel cursor evs w,
    today now - cursor = Z.of_nat k * day ->
    (k <= fuel)%nat ->
    exists t w',
      scan respond now body prm_ isProduction fuel cursor (evs, w)
        = (Some (Resolved tt), (evs ++ t, w'))
      /\ examined t = daysFrom cursor k
      /\ extended t = []
      /\ holesOf t = []
      /\ sent w' = sent w
                   ++ map (fun c => statistics_during_period c c
                                      [getStatisticId prm_ isProduction false])
                        (daysFrom cursor k).
Proof.
  intros Hfull. pose proof day_pos as Hd.
  induction k as [| k IH]; intros fuel cursor evs w Hdays Hfuel.
  - assert (Hguard : isBefore cursor (today now) = false).
    { unfold isBefore. apply Z.ltb_ge. lia. }
    exists [], w. destruct fuel; cbn [scan]; rewrite Hguard, !app_nil_r; now repeat split.
  - destruct fuel as [| fuel]; [lia |].
    assert (Hguard : isBefore cursor (today now) = true).
    { apply isBefore_spec. lia. }
    cbn [scan]. rewrite Hguard. unfold bindG at 1. rewrite await_sendMessage.
    destruct (Hfull cursor (store w)) as (r & st' & Hr & Hpts). rewrite Hr.
    unfold bindG at 1, note at 1. cbn [fst snd]. rewrite Hpts, addDays_1.
    destruct (IH fuel (cursor + day)
                (evs ++ [Examine cursor (r (getStatisticId prm_ isProduction false))])
                {| store := st';
                   sent := sent w ++ [statistics_during_period cursor cursor
                                        [getStatisticId prm_ isProduction false]] |})
      as (t & w' & Hrun & Hex & Hext & Hholes & Hsent); [lia | lia |].
    exists (Examine cursor (r (getStatisticId prm_ isProduction false)) :: t), w'.
    rewrite Hrun, daysFrom_S. unfold examined, extended, holesOf in *.
    cbn [flat_map app map]. rewrite Hex, Hext, Hholes, Hsent. cbn [sent].
    rewrite <- !app_assoc. now repeat split.
Qed.

(** X5. Over a store that has points for every day, that is one that
    answers the outer loop's query with points whatever the day, a scan
    from a start day resolves without a hole and without entering the
    inner loop: it examines each day from the start day to the eve of
    today once, in order, and sends these queries and nothing else. *)
Theorem no_gap_no_hole (d : Timestamp) (w : World St) :
  (forall c st, exists r st',
      respond (statistics_during_period c c [getStatisticId prm_ isProduction false]) st
        = (SuccessMessage r, st')
      /\ hasPoints (r (getStatisticId prm_ isProduction false)) = true) ->
  let days := daysFrom (startOfDay d) (Z.to_nat ((today now - startOfDay d) / day)) in
  exists evs w',
    missingDayRanges respond now body prm_ isProduction (Some d) ([], w)
      = (Some (Resolved tt), (evs, w'))
    /\ examined evs = days
    /\ extended evs = []
    /\ holesOf evs = []
    /\ issued w w'
       = map (fun c => statistics_during_period c c [getStatisticId prm_ isProduction false])
           days.
Proof.
  intros Hfull days. subst days. pose proof day_pos as Hd.
  destruct (Z_le_gt_dec (startOfDay d) (today now)) as [Hle | Hgt].
  - pose proof (startOfDay_midnight d) as Hmid.
    assert (Htoday : today now mod day = 0) by apply startOfDay_midnight.
    apply midnight_multiple in Htoday, Hmid.
    destruct Htoday as (qt & Htoday), Hmid as (q0 & Hmid).
    assert (Hn : (today now - startOfDay d) / day = qt - q0).
    { rewrite Htoday, Hmid, <- Z.mul_sub_distr_l, Z.mul_comm. apply Z_div_mult. lia. }
    cbn [missingDayRanges]. unfold daysLeft. rewrite Hn.
    destruct (scan_days_with_points (Z.to_nat (qt - q0)) Hfull
                (Z.to_nat (qt - q0 + 1)) (startOfDay d) [] w)
      as (t & w' & Hrun & Hex & Hext & Hholes & Hsent); [nia | lia |].
    exists t, w'. rewrite Hrun. cbn [app]. repeat split; auto.
    now apply issued_app.
  - assert (Hguard : isBefore (startOfDay d) (today now) = false).
    { unfold isBefore. apply Z.ltb_ge. lia. }
    assert (Hneg : Z.to_nat ((today now - startOfDay d) / day) = 0%nat).
    { assert ((today now - startOfDay d) / day < 0) by (apply Z.div_lt_upper_bound; lia).
      lia. }
    rewrite Hneg. exists [], w. cbn [missingDayRanges].
    destruct (daysLeft now (startOfDay d)); cbn [scan]; rewrite Hguard;
      repeat split; auto; apply issued_app; symmetry; apply app_nil_r.
Qed.




End ScannerMore.

(** * More on the client *)

Lemma idsFrom_S (id : Z) (n : nat) : idsFrom id (S n) = id :: idsFrom (id + 1) n.
Proof.
  unfold idsFrom. cbn [seq map]. f_equal; [lia |].
  rewrite <- seq_shift, map_map. apply map_ext. intros k. lia.
Qed.

Section SessionProperties.

Context {St : Type}.
Variable respond : Message -> St -> ResultMessage * St.
Variable respondIds : string -> St -> IdsMessage * St.
Variable respondClear : list string -> St -> ClearMessage * St.
Variable now : Timestamp.

Lemma postedSince_app (s s' : Session St) (l : list (Z * Request)) :
  posted s' = posted s ++ l -> postedSince s s' = l.
Proof.
  intros H. unfold postedSince. rewrite H, skipn_app, skipn_all, Nat.sub_diag. reflexivity.
Qed.

(** One turn of the loop of [findLastStatistic], by cases on the reply. *)
Lemma findLastFrom_turn (statisticId : string) (remaining i : nat) (s : Session St) :
  findLastFrom respond now (S remaining) i statisticId s =
    let s' := {| recorderState := snd (respond (blockQuery now statisticId i) (recorderState s));
                 messageId := messageId s + 1;
                 posted := posted s
                           ++ [(messageId s, recorder (blockQuery now statisticId i))] |} in
    match fst (respond (blockQuery now statisticId i) (recorderState s)) with
    | SuccessMessage data =>
        match data statisticId with
        | Some (p :: rest) => (Resolved (Some (last rest p)), s')
        | _ => findLastFrom respond now remaining (S i) statisticId s'
        end
    | ErrorMessage e =>
        (Rejected ("Home Assistant returned an error : " ++ e)%string, s')
    end.
Proof.
  assert (Hq : statistics_during_period
                 (startOfDay (addDays (- ((Z.of_nat i + 1) * 7)) now))
                 (startOfDay (addDays (- (Z.of_nat i * 7)) now)) [statisticId]
               = blockQuery now statisticId i).
  { rewrite !startOfDay_addDays. unfold blockQuery. f_equal; lia. }
  cbn [findLastFrom]. unfold bindS, postRecorder, post. rewrite Hq.
  destruct (respond _ (recorderState s)) as [[data | e] st']; cbn [fst snd];
    [| reflexivity].
  destruct (data statisticId) as [[| p rest] |]; reflexivity.
Qed.

(** What the loop posts, whatever the store answers. *)
Lemma findLastFrom_posts (statisticId : string) (remaining : nat) :
  forall i s,
    let res := findLastFrom respond now remaining i statisticId s in
    exists k, (k <= remaining)%nat
              /\ posted (snd res)
                 = posted s
                   ++ combine (idsFrom (messageId s) k)
                        (map (fun j => recorder (blockQuery now statisticId j)) (seq i k))
              /\ messageId (snd res) = messageId s + Z.of_nat k.
Proof.
  induction remaining as [| remaining IH]; intros i s res; subst res.
  - exists 0%nat. cbn. rewrite app_nil_r. repeat split; auto. lia.
  - rewrite findLastFrom_turn. cbn zeta.
    destruct (fst (respond (blockQuery now statisticId i) (recorderState s)))
      as [data | e].
    + destruct (data statisticId) as [[| p rest] |].
      2:{ exists 1%nat. rewrite idsFrom_S. cbn. repeat split; auto; lia. }
      all: match goal with
           | |- context [findLastFrom _ _ _ _ _ ?s0] =>
               destruct (IH (S i) s0) as (k & Hk & Hposted & Hid)
           end;
        exists (S k); rewrite Hposted, Hid; cbn [posted messageId];
        rewrite idsFrom_S; cbn [seq map combine]; rewrite <- app_assoc;
        repeat split; auto; lia.
    + exists 1%nat. rewrite idsFrom_S. cbn. repeat split; auto; lia.
Qed.

(** X7. Whatever the store answers, [findLastStatistic] posts first the
    listing of the series ids, and then at most 52 range queries, those of
    the seven-day blocks from the newest one on; the requests carry
    consecutive ids from the session's counter, which ends past the last
    of them. *)
Theorem findLastStatistic_requests (prm_ : string) (isProduction isCost : bool)
    (s : Session St) :
  let statisticId := getStatisticId prm_ isProduction isCost in
  let res := findLastStatistic respond respondIds now prm_ isProduction isCost s in
  exists k, (k <= 52)%nat
            /\ postedSince s (snd res)
               = combine (idsFrom (messageId s) (S k))
                   (list_statistic_ids "sum"
                      :: map (fun j => recorder (blockQuery now statisticId j)) (seq 0 k))
            /\ messageId (snd res) = messageId s + 1 + Z.of_nat k.
Proof.
  intros statisticId res. subst res.
  unfold findLastStatistic, bindS at 1, isNewPRM, bindS, postListIds, post, retS.
  destruct (respondIds "sum" (recorderState s)) as [[ids | e] st'].
  - fold statisticId.
    destruct (negb (existsb (fun statistic_id => String.eqb statistic_id statisticId) ids)).
    + exists 0%nat. cbn [snd posted messageId]. split; [lia |]. split; [| lia].
      apply postedSince_app. rewrite idsFrom_S. reflexivity.
    + match goal with
      | |- context [findLastFrom _ _ _ _ _ ?s0] =>
          destruct (findLastFrom_posts statisticId 52 0 s0) as (k & Hk & Hposted & Hid)
      end.
      exists k. rewrite Hid. cbn [messageId]. split; [exact Hk |]. split; [| lia].
      apply postedSince_app. rewrite Hposted. cbn [posted messageId].
      rewrite idsFrom_S. cbn [combine]. now rewrite <- app_assoc.
  - exists 0%nat. cbn [snd posted messageId]. split; [lia |]. split; [| lia].
    apply postedSince_app. rewrite idsFrom_S. reflexivity.
Qed.

(** X8. For a series the store does not list, [findLastStatistic] resolves
    with null after the listing alone: no range query is made. *)
Theorem findLastStatistic_new_series (prm_ : string) (isProduction isCost : bool)
    (s : Session St) (ids : list string) (st' : St) :
  respondIds "sum" (recorderState s) = (IdsSuccess ids, st') ->
  ~ In (getStatisticId prm_ isProduction isCost) ids ->
  findLastStatistic respond respondIds now prm_ isProduction isCost s
    = (Resolved None,
       {| recorderState := st';
          messageId := messageId s + 1;
          posted := posted s ++ [(messageId s, list_statistic_ids "sum")] |}).
Proof.
  intros Hids Hnew.
  unfold findLastStatistic, bindS at 1, isNewPRM, bindS, postListIds, post, retS.
  rewrite Hids.
  assert (Hfind : existsb (fun statistic_id =>
                             String.eqb statistic_id (getStatisticId prm_ isProduction isCost))
                    ids = false).
  { destruct (existsb _ ids) eqn:He; [| reflexivity].
    apply existsb_exists in He. destruct He as (x & Hin & Hx).
    apply String.eqb_eq in Hx. subst x. contradiction. }
  rewrite Hfind. reflexivity.
Qed.

Lemma findLastFrom_blocks (statisticId : string) (st : St) (remaining : nat) :
  forall i (s : Session St),
    recorderState s = st ->
    (forall a b ids st0, snd (respond (statistics_during_period a b ids) st0) = st0) ->
    (forall j, (i <= j < i + remaining)%nat ->
       exists r, fst (respond (blockQuery now statisticId j) st) = SuccessMessage r) ->
    let block j :=
      match fst (respond (blockQuery now statisticId j) st) with
      | SuccessMessage r => r statisticId
      | ErrorMessage _ => None
      end in
    fst (findLastFrom respond now remaining i statisticId s)
      = Resolved (lastOfNewestBlock (map block (seq i remaining))).
Proof.
  induction remaining as [| remaining IH]; intros i s Hst Hro Hok block; subst block st.
  - reflexivity.
  - rewrite findLastFrom_turn. cbn zeta. cbn [seq map lastOfNewestBlock].
    destruct (Hok i ltac:(lia)) as (r & Hr). rewrite Hr.
    assert (Hnext :
      fst (findLastFrom respond now remaining (S i) statisticId
             {| recorderState := snd (respond (blockQuery now statisticId i) (recorderState s));
                messageId := messageId s + 1;
                posted := posted s
                          ++ [(messageId s, recorder (blockQuery now statisticId i))] |})
      = Resolved (lastOfNewestBlock
                    (map (fun j => match fst (respond (blockQuery now statisticId j)
                                                 (recorderState s)) with
                                   | SuccessMessage r => r statisticId
                                   | ErrorMessage _ => None
                                   end) (seq (S i) remaining)))).
    { apply IH.
      - cbn [recorderState]. unfold blockQuery. apply Hro.
      - exact Hro.
      - intros j Hj. apply Hok. lia. }
    destruct (r statisticId) as [[| p rest] |]; auto.
Qed.

(** X9. For a series the store lists, against a store that answers every
    query and is left as it is by the listing and by queries,
    [findLastStatistic] resolves with the last point of the newest block
    that has points among the 52 seven-day blocks
    [[today - 7 (i + 1) days, today - 7 i days)], [i] from 0 to 51, and
    with null when all 52 are empty. *)
Theorem last_point_of_newest_block (prm_ : string) (isProduction isCost : bool)
    (s : Session St) (ids : list string) :
  let statisticId := getStatisticId prm_ isProduction isCost in
  respondIds "sum" (recorderState s) = (IdsSuccess ids, recorderState s) ->
  In statisticId ids ->
  (forall a b ids0 st0, snd (respond (statistics_during_period a b ids0) st0) = st0) ->
  (forall j, (j < 52)%nat ->
     exists r,
       fst (respond (blockQuery now statisticId j) (recorderState s)) = SuccessMessage r) ->
  let block j :=
    match fst (respond (blockQuery now statisticId j) (recorderState s)) with
    | SuccessMessage r => r statisticId
    | ErrorMessage _ => None
    end in
  fst (findLastStatistic respond respondIds now prm_ isProduction isCost s)
    = Resolved (lastOfNewestBlock (map block (seq 0 52))).
Proof.
  intros statisticId Hids Hin Hro Hok block.
  unfold findLastStatistic, bindS at 1, isNewPRM, bindS, postListIds, post, retS.
  rewrite Hids. fold statisticId.
  assert (Hfind : existsb (fun statistic_id => String.eqb statistic_id statisticId) ids
                  = true).
  { apply existsb_exists. exists statisticId. split; [exact Hin | apply String.eqb_refl]. }
  rewrite Hfind. cbn [negb].
  apply (findLastFrom_blocks statisticId (recorderState s) 52 0); auto.
  intros j Hj. apply Hok. lia.
Qed.

End SessionProperties.

(** * More on the locator, the driver and the series ids *)

Lemma blocksFrom_bound (i j : nat) : In j (blocksFrom i) -> (j <= i)%nat.
Proof.
  induction i as [| i IH]; cbn [blocksFrom].
  - intros [<- | []]. lia.
  - intros [<- | Hin]; [lia |]. specialize (IH Hin). lia.
Qed.

Lemma in_firstn {A} (k : nat) (l : list A) (x : A) : In x (firstn k l) -> In x l.
Proof.
  intros H. rewrite <- (firstn_skipn k l). apply in_or_app. now left.
Qed.

Section LocatorMore.

Context {St : Type}.
Variable respond : Message -> St -> ResultMessage * St.
Variable now : Timestamp.

(** What the locator sends, whatever the store answers. *)
Lemma findOldestFrom_queries (statisticId : string) (i : nat) :
  forall w : World St,
    let res := findOldestFrom respond now i statisticId w in
    exists k, (1 <= k <= S i)%nat
              /\ sent (snd res)
                 = sent w ++ map (blockQuery now statisticId) (firstn k (blocksFrom i))
              /\ (fst res = Resolved None -> k = S i).
Proof.
  induction i as [| i IH]; intros w res; subst res; rewrite findOldestFrom_turn.
  - destruct (respond _ (store w)) as [[r | e] st'].
    + destruct (r statisticId) as [[| p rest] |]; exists 1%nat; cbn;
        (split; [lia |]); (split; [reflexivity |]); auto.
    + exists 1%nat. cbn. split; [lia |]. split; [reflexivity |]. discriminate.
  - destruct (respond _ (store w)) as [[r | e] st'].
    + cbn zeta. destruct (r statisticId) as [[| p rest] |].
      2:{ exists 1%nat. cbn. split; [lia |]. split; [reflexivity |]. discriminate. }
      all: match goal with
           | |- context [findOldestFrom _ _ _ _ ?w0] =>
               destruct (IH w0) as (k & Hk & Hsent & Hnone)
           end;
        exists (S k); rewrite Hsent; cbn [sent blocksFrom firstn map];
        rewrite <- app_assoc; (split; [lia |]); (split; [reflexivity |]);
        intros H; specialize (Hnone H); lia.
    + exists 1%nat. cbn. split; [lia |]. split; [reflexivity |]. discriminate.
Qed.

(** X10. Whatever the store answers, the locator sends at least one and at
    most 154 messages: the queries of the seven-day blocks from the oldest
    one on, in order, up to the block it stops at; it reports no data only
    after all 154. *)
Theorem locator_queries (statisticId : string) (w : World St) :
  let res := findOldestStatistic respond now statisticId w in
  exists k, (1 <= k <= 154)%nat
            /\ issued w (snd res)
               = map (blockQuery now statisticId) (firstn k (rev (seq 0 154)))
            /\ (fst res = Resolved None -> k = 154%nat).
Proof.
  cbn zeta. change (rev (seq 0 154)) with (blocksFrom 153).
  destruct (findOldestFrom_queries statisticId 153 w) as (k & Hk & Hsent & Hnone).
  exists k. repeat split; try lia; auto. now apply issued_app.
Qed.

(** X11. Every message the locator sends is a range query for the one
    series over seven whole days, inside the 154 weeks that end today. *)
Theorem locator_windows (statisticId : string) (w : World St) :
  Forall (fun m => exists s e,
              m = statistics_during_period s e [statisticId]
              /\ e = s + 7 * day
              /\ s mod day = 0
              /\ today now - 154 * 7 * day <= s
              /\ e <= today now)
    (issued w (snd (findOldestStatistic respond now statisticId w))).
Proof.
  destruct (findOldestFrom_queries statisticId 153 w) as (k & Hk & Hsent & _).
  rewrite (issued_app w (snd (findOldestStatistic respond now statisticId w)) _ Hsent).
  apply Forall_forall. intros m Hin. apply in_map_iff in Hin.
  destruct Hin as (j & <- & Hj). apply in_firstn, blocksFrom_bound in Hj.
  pose proof day_pos as Hd.
  exists (today now - (Z.of_nat j + 1) * 7 * day), (today now - Z.of_nat j * 7 * day).
  repeat split; try nia.
  assert (Htoday : today now mod day = 0) by apply startOfDay_midnight.
  apply midnight_multiple in Htoday. destruct Htoday as (q & ->).
  apply midnight_multiple. exists (q - (Z.of_nat j + 1) * 7). lia.
Qed.

End LocatorMore.

Section DriverMore.

Context {St : Type}.
Variable respond : Message -> St -> ResultMessage * St.
Variable now : Timestamp.
Context {CostConfig : Type}.
Variable formatAsStatistics : list LinkyDataPoint -> number -> list StatisticDataPoint.
Variable computeCosts :
  list StatisticDataPoint -> CostConfig -> number -> list StatisticDataPoint.
Variable config : MeterConfig CostConfig.
Variable rawData : list LinkyDataPoint.

Ltac sent_list :=
  cbn [fst snd store sent];
  match goal with
  | |- context [issued ?w ?w'] =>
      let l := fresh "l" in
      let H := fresh "H" in
      evar (l : list Message);
      assert (H : issued w w' = l);
      [ apply issued_app; cbn [sent]; rewrite <- ?app_assoc; cbn [app];
        subst l; first [ reflexivity | symmetry; apply app_nil_r ]
      | subst l; rewrite H; clear H ]
  end.

Ltac on_reply :=
  match goal with
  | |- context [respond ?m ?s] => destruct (respond m s) as [[? | ?] ?] eqn:?
  end.

Ltac fill_cases hole :=
  unfold fillHole;
  destruct (holeDataRaw rawData hole) as [| d ds] eqn:Hdata;
  [ unfold ret
  | generalize (formatAsStatistics (d :: ds) (lastSum hole)); intros holeStats;
    unfold bind, saveStatistics, adjustSum, bind, sendMessage, ret;
    on_reply; cbn [fst snd];
    [ destruct holeStats as [| p prest]; [| on_reply; cbn [fst snd]];
      [ | | ];
      try (destruct (costs config) as [costs_ |], (lastCost hole) as [lastCost_ |];
           [ destruct (truthy lastCost_);
             [ destruct (computeCosts _ costs_ lastCost_) as [| c crest];
               [ | on_reply; cbn [fst snd]; [on_reply; cbn [fst snd] |] ]
             | ]
           | | | ])
    | ] ].

(** X12. Whatever the store answers, the driver sends at most four
    messages for a hole, all of them imports and adjustments of the
    meter's energy and cost series, and every adjustment at [hole.next];
    it sends none when the hole has no reading, and otherwise the first is
    the import of the formatted readings into the energy series. *)
Theorem fill_calls (hole : Hole) (w : World St) :
  let energyId := getStatisticId (prm config) (production config) false in
  let costId := getStatisticId (prm config) (production config) true in
  let calls :=
    issued w (snd (fillHole respond formatAsStatistics computeCosts config rawData hole w)) in
  (List.length calls <= 4)%nat
  /\ Forall (fun m => isImportOf energyId m || isAdjustOf energyId m
                      || isImportOf costId m || isAdjustOf costId m = true) calls
  /\ Forall (fun m => match m with
                      | adjust_sum_statistics _ start_time _ _ => start_time = next hole
                      | _ => True
                      end) calls
  /\ match calls with
     | [] => holeDataRaw rawData hole = []
     | m :: _ =>
         m = import_statistics
               (metadataOf (prm config) (meterName config) (production config) false)
               (formatAsStatistics (holeDataRaw rawData hole) (lastSum hole))
     end.
Proof.
  intros energyId costId calls. subst calls.
  fill_cases hole; sent_list;
    cbn [List.length];
    subst energyId costId;
    (split; [lia |]);
    (split; [repeat constructor;
             cbn [isImportOf isAdjustOf statistic_id];
             rewrite ?String.eqb_refl, ?orb_true_r; reflexivity |]);
    (split; [repeat constructor |]); reflexivity.
Qed.

(** X13. When the driver is rejected on a hole, the store refused the last
    message sent, with the reason the rejection carries: nothing is sent
    after a refused import or adjustment. *)
Theorem fill_rejected (hole : Hole) (w : World St) (reason : string) :
  let run := fillHole respond formatAsStatistics computeCosts config rawData hole w in
  fst run = Rejected reason ->
  exists l m e st st',
    issued w (snd run) = l ++ [m]
    /\ respond m st = (ErrorMessage e, st')
    /\ reason = ("Home Assistant returned an error : " ++ e)%string.
Proof.
  cbn zeta.
  fill_cases hole; cbn [fst]; intros Hr; try discriminate Hr;
    inversion Hr; subst; sent_list;
    match goal with
    | |- exists l m e st st', [?a] = _ /\ _ => exists [], a
    | |- exists l m e st st', [?a; ?b] = _ /\ _ => exists [a], b
    | |- exists l m e st st', [?a; ?b; ?c] = _ /\ _ => exists [a; b], c
    | |- exists l m e st st', [?a; ?b; ?c; ?d] = _ /\ _ => exists [a; b; c], d
    end;
    eexists _, _, _; (split; [reflexivity |]); (split; [eassumption | reflexivity]).
Qed.

(** X14. Without a cost configuration the driver writes nothing to the cost
    series, whatever the hole's cost baseline. *)
Theorem fill_without_costs (hole : Hole) (w : World St) :
  costs config = None ->
  let costId := getStatisticId (prm config) (production config) true in
  filter (fun m => isImportOf costId m || isAdjustOf costId m)
    (issued w (snd (fillHole respond formatAsStatistics computeCosts config rawData hole w)))
  = [].
Proof.
  intros Hnone costId. unfold fillHole. rewrite Hnone.
  destruct (holeDataRaw rawData hole) as [| d ds].
  - unfold ret. sent_list. reflexivity.
  - generalize (formatAsStatistics (d :: ds) (lastSum hole)). intros holeStats.
    unfold bind, saveStatistics, adjustSum, bind, sendMessage, ret.
    on_reply; cbn [fst snd];
      [destruct holeStats as [| p prest]; [| on_reply; cbn [fst snd]] |];
      sent_list; cbn [filter isImportOf isAdjustOf statistic_id orb];
      subst costId; rewrite ?energy_id_not_cost_id; reflexivity.
Qed.

(** X15. The readings the driver takes for the holes of one scan do not
    overlap: in the order the holes are yielded, every reading of a hole
    is dated from its [from] on and before the [from] of every later
    hole, so no reading is written into two holes. *)
Theorem readings_of_holes_apart (body : Hole -> Client St unit) (prm_ : string)
    (isProduction : bool) (startDay : option Timestamp) (w : World St) :
  let holes :=
    holesOf (history (missingDayRanges respond now body prm_ isProduction startDay ([], w)))
  in
  StronglySorted
    (fun h1 h2 => Forall (fun pt => from h1 <= date pt < from h2) (holeDataRaw rawData h1))
    holes.
Proof.
  destruct (missingDayRanges_history respond now body prm_ isProduction startDay w)
    as (o & evs & w' & cursor & Hrun & Hscan).
  rewrite Hrun. unfold history. cbn [fst snd].
  destruct (scanning_holes _ _ _ _ _ _ _ _ Hscan) as [Hs _].
  induction Hs as [| h l Hl IH Hh]; constructor; [exact IH |].
  eapply Forall_impl; [| exact Hh]. cbn. intros h2 Hle.
  unfold holeDataRaw. apply Forall_forall. intros pt Hin.
  apply filter_In in Hin. destruct Hin as [_ Hsel].
  apply andb_true_iff in Hsel. destruct Hsel as [Hfrom Hto].
  apply negb_true_iff in Hfrom. unfold isBefore in *.
  apply Z.ltb_ge in Hfrom. apply Z.ltb_lt in Hto. lia.
Qed.

End DriverMore.

(** X16. The ids of a meter do not collide: for one meter the two flags give
    four different ids, and for given flags different meters give
    different ids. *)
Theorem statistic_ids_apart (prm1 prm2 : string) (p1 c1 p2 c2 : bool) :
  getStatisticId prm1 p1 c1 = getStatisticId prm2 p2 c2 ->
  (prm1 = prm2 -> p1 = p2 /\ c1 = c2)
  /\ (p1 = p2 -> c1 = c2 -> prm1 = prm2).
Proof.
  intros H. split.
  - intros <-. assert (Hp : p1 = p2).
    { destruct p1, p2; auto; unfold getStatisticId in H; cbn in H; discriminate H. }
    subst p2. split; [reflexivity |].
    destruct c1, c2; auto; apply (f_equal String.length) in H;
      unfold getStatisticId in H; rewrite !length_append in H; cbn in H; lia.
  - intros <- <-. unfold getStatisticId in H.
    assert (Happ : forall a b c : string, (a ++ b = a ++ c)%string -> b = c).
    { induction a as [| x a IHa]; cbn; intros b c Hbc; [exact Hbc |].
      inversion Hbc. auto. }
    assert (Hrev : forall a b c : string, (a ++ c = b ++ c)%string -> a = b).
    { intros a b c Hac.
      assert (Hlen : String.length a = String.length b).
      { apply (f_equal String.length) in Hac. rewrite !length_append in Hac. lia. }
      revert b Hac Hlen. induction a as [| x a IHa]; intros [| y b] Hac Hlen;
        try discriminate; [reflexivity |].
      cbn in Hac, Hlen. inversion Hac. f_equal. apply IHa; auto. }
    apply Happ, Happ in H. now apply Hrev in H.
Qed.

(** X17. The source that [saveStatistics] declares is the domain of the
    statistic id it writes to, [linky] or [linky_prod], whatever the meter
    id holds, colons included: the id is the source, a colon, the meter id
    and the cost suffix. *)
Theorem saved_source_is_domain {St} (respond : Message -> St -> ResultMessage * St)
    (prm_ name_ : string) (isProduction isCost : bool)
    (stats : list StatisticDataPoint) (w : World St) :
  exists md,
    issued w (snd (saveStatistics respond prm_ name_ isProduction isCost stats w))
      = [import_statistics md stats]
    /\ source md = (if isProduction then "linky_prod" else "linky")%string
    /\ statistic_id md
       = (source md ++ ":" ++ prm_ ++ (if isCost then "_cost" else ""))%string
    /\ unit_of_measurement md = (if isCost then "€" else "Wh")%string.
Proof.
  exists (metadataOf prm_ name_ isProduction isCost).
  split; [| split; [| split]].
  - apply issued_app. unfold saveStatistics, bind, sendMessage, ret.
    destruct (respond _ (store w)) as [[r | e] st']; reflexivity.
  - destruct isProduction; reflexivity.
  - destruct isProduction; reflexivity.
  - reflexivity.
Qed.

(** * More theorems at sample inputs *)

(** X1 with today as the start day. *)
Lemma start_not_before_today_sample :
  logMissingRanges Recorder.respond Sample.now Sample.meter false (Some (2000 * day))
    ([], Recorder.world Sample.gapDb)
  = (Some (Resolved tt), ([], Recorder.world Sample.gapDb)).
Proof.
  apply (start_not_before_today Recorder.respond Sample.now (fun _ => ret tt) Sample.meter
           false (2000 * day) (Recorder.world Sample.gapDb)).
  vm_compute. discriminate.
Defined.

(** X3 on the scan over [Sample.gapDb]: the hole of day 1997 has no day
    between its first day and its closing day. *)
Lemma hole_days_found_empty_sample :
  exists pre0 points mid p rest,
    [Examine (1997 * day) None; Extend (1998 * day) (Some [Recorder.point 1998 9%float])]
    = pre0 ++ Examine (from (Sample.hole 5%float None)) points :: mid
           ++ [Extend (to (Sample.hole 5%float None)) (Some (p :: rest))]
    /\ hasPoints points = false
    /\ forallb foundEmpty mid = true
    /\ extended mid = daysFrom (from (Sample.hole 5%float None) + day) (List.length mid)
    /\ to (Sample.hole 5%float None)
       = from (Sample.hole 5%float None) + (Z.of_nat (List.length mid) + 1) * day.
Proof.
  apply (hole_days_found_empty Recorder.respond Sample.now (fun _ => ret tt) Sample.meter
           false (Some (1997 * day)) (Recorder.world Sample.gapDb) _ _
           [Examine (1998 * day) None; Extend (1999 * day) None; Extend (2000 * day) None]).
  vm_compute. reflexivity.
Defined.

(** X5 over a store that has a point for every day, from day 1997. *)
Lemma no_gap_no_hole_sample :
  exists evs w',
    logMissingRanges Recorder.respondEveryDay Sample.now Sample.meter false
      (Some (1997 * day)) ([], Recorder.world [])
    = (Some (Resolved tt), (evs, w'))
    /\ examined evs
       = daysFrom (startOfDay (1997 * day))
           (Z.to_nat ((today Sample.now - startOfDay (1997 * day)) / day))
    /\ extended evs = []
    /\ holesOf evs = []
    /\ issued (Recorder.world []) w'
       = map (fun c => statistics_during_period c c [getStatisticId Sample.meter false false])
           (daysFrom (startOfDay (1997 * day))
              (Z.to_nat ((today Sample.now - startOfDay (1997 * day)) / day))).
Proof.
  apply (no_gap_no_hole Recorder.respondEveryDay Sample.now (fun _ => ret tt) Sample.meter
           false (1997 * day) (Recorder.world [])).
  intros c st. eexists _, _. split; reflexivity.
Defined.


(** X8 for the cost series, which [Sample.gapDb] does not hold. *)
Lemma findLastStatistic_new_series_sample :
  findLastStatistic Recorder.respond Recorder.respondIds Sample.now Sample.meter false true
    (Recorder.session Sample.gapDb 4711)
  = (Resolved None,
     {| recorderState := Sample.gapDb;
        messageId := 4711 + 1;
        posted := [] ++ [(4711, list_statistic_ids "sum")] |}).
Proof.
  apply (findLastStatistic_new_series Recorder.respond Recorder.respondIds Sample.now
           Sample.meter false true (Recorder.session Sample.gapDb 4711)
           (map fst Sample.gapDb) Sample.gapDb).
  - reflexivity.
  - vm_compute. intros [H | [H | []]]; discriminate H.
Defined.

(** X9 for the energy series of [Sample.gapDb]: its last point is that of
    day 1998. *)
Lemma last_point_of_newest_block_sample :
  fst (findLastStatistic Recorder.respond Recorder.respondIds Sample.now Sample.meter
         false false (Recorder.session Sample.gapDb 4711))
  = Resolved
      (lastOfNewestBlock
         (map (fun j =>
                 match fst (Recorder.respond
                              (blockQuery Sample.now (getStatisticId Sample.meter false false) j)
                              Sample.gapDb) with
                 | SuccessMessage r => r (getStatisticId Sample.meter false false)
                 | ErrorMessage _ => None
                 end) (seq 0 52))).
Proof.
  apply (last_point_of_newest_block Recorder.respond Recorder.respondIds Sample.now
           Sample.meter false false (Recorder.session Sample.gapDb 4711)
           (map fst Sample.gapDb)).
  - reflexivity.
  - vm_compute. now left.
  - reflexivity.
  - intros j _. eexists. reflexivity.
Defined.

(** X13 over a store that refuses imports. *)
Lemma fill_rejected_sample :
  exists l m e st st',
    issued (Recorder.world Sample.gapDb)
      (snd (fillHole Recorder.respondNoImport Sample.formatAsStatistics Sample.computeCosts
              Sample.config Sample.rawData (Sample.hole 100%float None)
              (Recorder.world Sample.gapDb)))
    = l ++ [m]
    /\ Recorder.respondNoImport m st = (ErrorMessage e, st')
    /\ ("Home Assistant returned an error : import refused"
        = "Home Assistant returned an error : " ++ e)%string.
Proof.
  apply (fill_rejected Recorder.respondNoImport Sample.formatAsStatistics Sample.computeCosts
           Sample.config Sample.rawData (Sample.hole 100%float None)
           (Recorder.world Sample.gapDb)).
  vm_compute. reflexivity.
Defined.

(** X14 for the sample meter without its cost configuration. *)
Lemma fill_without_costs_sample :
  filter (fun m => isImportOf Sample.costId m || isAdjustOf Sample.costId m)
    (issued (Recorder.world Sample.gapDb)
       (snd (fillHole Recorder.respond Sample.formatAsStatistics Sample.computeCosts
               (noCosts Sample.config) Sample.rawData (Sample.hole 100%float (Some 10%float))
               (Recorder.world Sample.gapDb))))
  = [].
Proof.
  apply (fill_without_costs Recorder.respond Sample.formatAsStatistics Sample.computeCosts
           (noCosts Sample.config) Sample.rawData (Sample.hole 100%float (Some 10%float))
           (Recorder.world Sample.gapDb)).
  reflexivity.
Defined.

(** X16 at the sample meter. *)
Lemma statistic_ids_apart_sample :
  (Sample.meter = Sample.meter -> false = false /\ true = true)
  /\ (false = false -> true = true -> Sample.meter = Sample.meter).
Proof.
  apply (statistic_ids_apart Sample.meter Sample.meter false true false true).
  reflexivity.
Defined.
